(** * A1/generator.py: the birder / watcher simulation

    A shallow embedding of [src/A1/generator.py].  The script draws a target
    bird, lets a "birder" produce one space-delimited string of birds per day
    (either all at once, as a list, or one at a time, as a generator object)
    and lets a "watcher" count the target in those days (either day by day or
    by collecting every match first).

    Modelling choices, in the order of the file:
    - Python [str] is [string]; [str.split(' ')] and [' '.join] are [split]
      and [join].
    - Python [int] is [Z]; [range(n)] has [Z.to_nat (Z.max 0 n)] items.
    - The hidden process-wide generator of the [random] module is an explicit
      state behind the interface [RandomGen]; [random.choice] and
      [random.randint] are written over its [randbelow], as in CPython.
    - A generator object lives in a store of frames and is used through a
      reference, so that two consumers of one generator see each other's
      pulls.
    - Functions that touch the generator of [random] or the store are written
      in a state monad over [World].
    - What is random about a day is stated on an ideal source of randomness:
      there the birder's functions are trees of draws ([Ideal]), weighed by
      [Ideal.expect], and [play] runs such a tree on the generator of the
      world. *)

From Stdlib Require Import ZArith Lia Ascii String List QArith Qcanon.
From Stdlib Require Import Numbers.DecimalString Numbers.DecimalPos.
From stdpp Require Import base list.
Import ListNotations.

Local Open Scope Z_scope.
Local Open Scope string_scope.

(** ** Strings *)

Definition space : ascii := " "%char.

(** [day.split(' ')]: cut at every occurrence of the separator; the result
    always has at least one element ([''.split(' ') == ['']]). *)
Fixpoint split (sep : ascii) (s : string) : list string :=
  match s with
  | EmptyString => [EmptyString]
  | String c rest =>
      if Ascii.eqb c sep then EmptyString :: split sep rest
      else match split sep rest with
           | [] => [String c EmptyString]
           | w :: ws => String c w :: ws
           end
  end.

(** [sep.join(items)]. *)
Fixpoint join (sep : string) (items : list string) : string :=
  match items with
  | [] => EmptyString
  | [x] => x
  | x :: rest => x ++ sep ++ join sep rest
  end.

(** [c in s] for a character [c]. *)
Fixpoint has_char (c : ascii) (s : string) : bool :=
  match s with
  | EmptyString => false
  | String d rest => Ascii.eqb d c || has_char c rest
  end.

(** ** The catalog *)

Definition _BIRDS : list string := [
    "Catharacta_skua"; "Tringa_flavipes"; "peewee"; "gallinaceous_bird";
    "yellowthroat"; "dunlin"; "notornis"; "Ardea_occidentalis";
    "English_sparrow"; "titlark"; "ring_blackbird"; "American_woodcock";
    "takahe"; "ern"; "lyrebird"; "coastal_diving_bird";
    "Vireo_solitarius"; "red-shouldered_hawk"; "Polynesian_tattler";
    "cuckoo"; "tit"; "tree_martin"; "bird_of_Juno"; "skua"; "cacique";
    "tufted_puffin"; "Buteo_buteo"; "Fulmarus_glacialis";
    "resplendent_quetzel"; "oilbird"; "lesser_whitethroat"; "antbird";
    "Haliatus_albicilla"; "wood-creeper"; "ocellated_turkey";
    "downy_woodpecker"; "Corvus_monedula"; "Oriolus_oriolus";
    "grey_catbird"; "songbird"; "grossbeak"; "ringdove"; "wren-tit";
    "longlegs"; "Chen_caerulescens"; "roller"; "darter";
    "Alcedo_atthis"; "Psophia_crepitans"; "ratite";
    "Phalaenoptilus_nuttallii"; "pine_grosbeak"; "pine_finch";
    "butterball"; "Parus_carolinensis"; "Circus_Aeruginosus";
    "great_auk"; "European_nightjar"; "rhea"; "ortolan"; "duck";
    "Mimus_polyglotktos"; "whidah"; "bushtit"; "nightjar";
    "Syrrhaptes_paradoxus"; "Bubo_virginianus"; "aepyornis"; "puffin";
    "Carpodacus_purpureus"; "Haliaeetus_leucocephalus"; "curlew";
    "ratite_bird"; "blue_tit"; "Eurasian_kingfisher";
    "European_nuthatch"; "kaki"; "Mother_Carey's_chicken";
    "Dolichonyx_oryzivorus"; "carinate_bird"; "Padda_oryzivora";
    "true_sparrow"; "bush_tit"; "tufted_titmouse"; "tomtit";
    "lesser_scaup_duck"; "Garullus_garullus"; "whooper"; "piping_crow";
    "guan"; "red-legged_partridge"; "mockingbird"; "bantam";
    "gyrfalcon"; "Cygnus_columbianus"; "cochin"; "titmouse"; "scaup";
    "Milvus_migrans"; "smew"; "grey_kingbird"; "oyster_catcher"; "cock";
    "chuck-will's-widow"; "fulmar_petrel"; "Actitis_macularia";
    "petrel"; "chunga"; "Collocalia_inexpectata"; "cliff_swallow";
    "moorbird"; "Actitis_hypoleucos"
  ].

(** ** Counting a bird in a day *)

(** [[x for x in day.split(' ') if x == bird]] *)
Definition find_bird_in_day (bird day : string) : list string :=
  List.filter (fun x => String.eqb x bird) (split space day).

(** ** Python integers and ranges *)

(** [len(range(n))]: a range over a non-positive bound is empty. *)
Definition range_len (n : Z) : nat := Z.to_nat (Z.max 0 n).

(** [len(l)] as a Python integer. *)
Definition len {A} (l : list A) : Z := Z.of_nat (List.length l).

(** ['{}'.format(n)] for an integer [n]. *)
Definition format_int (n : Z) : string := NilZero.string_of_int (Z.to_int n).

(** ** Reading the command line

    [main] builds an [ArgumentParser] with three positional arguments:
    [BIRDER] with choices [list] and [generator], [WATCHER] with choices
    [globally] and [daily], and [DAYS] with [type=int].  The parser and [int]
    belong to Python's library; what follows models them on command lines
    made of positional tokens. *)

Definition is_digit (c : ascii) : bool :=
  ((48 <=? nat_of_ascii c) && (nat_of_ascii c <=? 57))%nat.

(** The characters [int] skips around a number in ASCII text: tab, line
    feed, vertical tab, form feed, carriage return (9 to 13) and the space.
    The separators 28 to 31 are not among them: [int] refuses a token that
    holds one. *)
Definition is_space (c : ascii) : bool :=
  let n := nat_of_ascii c in
  (((9 <=? n) && (n <=? 13)) || (n =? 32))%nat.

Fixpoint lstrip (s : string) : string :=
  match s with
  | EmptyString => EmptyString
  | String c rest => if is_space c then lstrip rest else s
  end.

Fixpoint all_space (s : string) : bool :=
  match s with
  | EmptyString => true
  | String c rest => is_space c && all_space rest
  end.

Definition digit_value (c : ascii) : Z := Z.of_nat (nat_of_ascii c) - 48.

(** Reads the leading decimal digits of [s] onto [acc]; returns the value and
    what follows the digits. *)
Fixpoint scan_digits (acc : Z) (s : string) : Z * string :=
  match s with
  | EmptyString => (acc, EmptyString)
  | String c rest =>
      if is_digit c then scan_digits (10 * acc + digit_value c) rest
      else (acc, s)
  end.

Definition starts_with_digit (s : string) : bool :=
  match s with
  | EmptyString => false
  | String c _ => is_digit c
  end.

(** Text made of ASCII characters only. *)
Fixpoint ascii_text (s : string) : bool :=
  match s with
  | EmptyString => true
  | String c rest => (nat_of_ascii c <? 128)%nat && ascii_text rest
  end.

(** [int(s)] in base ten, as of the Python 3.5 the script names: optional
    white space, an optional sign, one or more digits, optional white space.
    [None] is [ValueError].  The digits and the white space are the ASCII
    ones: on [ascii_text] this is [int].  Beyond ASCII Python also reads the
    decimal digits and the white space of other scripts; this function
    answers [None] on every text that is not [ascii_text], so a [Some] is
    always what [int] returns, while a [None] is [ValueError] on ASCII text
    only. *)
Definition python_int (s : string) : option Z :=
  let s1 := lstrip s in
  let '(sign, s2) :=
    match s1 with
    | String "-" rest => (-1, rest)
    | String "+" rest => (1, rest)
    | _ => (1, s1)
    end in
  if starts_with_digit s2 then
    let '(v, rest) := scan_digits 0 s2 in
    if all_space rest then Some (sign * v) else None
  else None.

(** [$] of a regular expression: the end of the text, or just before a
    newline that ends it. *)
Definition at_end (s : string) : bool :=
  match s with
  | EmptyString => true
  | String c EmptyString => (nat_of_ascii c =? 10)%nat
  | _ => false
  end.

(** The parser's [_negative_number_matcher], ['^-\d+$|^-\d*\.\d+$']. *)
Definition negative_number (s : string) : bool :=
  match s with
  | String "-" rest =>
      let after := snd (scan_digits 0 rest) in
      (starts_with_digit rest && at_end after)
      || match after with
         | String "." frac =>
             starts_with_digit frac && at_end (snd (scan_digits 0 frac))
         | _ => false
         end
  | _ => false
  end.

(** Tokens that the parser takes as arguments of positionals whatever else
    they look like: the empty token, a token that does not start with [-],
    the lone [-], and a token that looks like a negative number (the parser
    has no option that looks like one).  The test is sufficient, not
    necessary: the parser also takes some other tokens that start with [-]
    as positionals (those that hold a space and match no option), and these
    are left to the tokens in option syntax ([-h], [--help], [--], unknown
    flags), on which the model says nothing. *)
Definition positional_token (s : string) : bool :=
  match s with
  | EmptyString => true
  | String "-" EmptyString => true
  | String "-" _ => negative_number s
  | String _ _ => true
  end.

Record Namespace := {
  BIRDER : string;
  WATCHER : string;
  DAYS : Z
}.

(** What [parser.error] reports before it exits with status 2:
    [argument DEST: invalid choice: VALUE (choose from ...)],
    [argument DEST: invalid int value: VALUE],
    [the following arguments are required: ...] and
    [unrecognized arguments: ...]. *)
Inductive usage_error :=
| InvalidChoice (dest value : string) (choices : list string)
| InvalidInt (dest value : string)
| Required (dests : list string)
| Unrecognized (extras : list string).

Inductive parse_result :=
| Parsed (namespace : Namespace)
| ParseError (e : usage_error)
| OptionSyntax.

Definition birder_choices : list string := ["list"; "generator"].
Definition watcher_choices : list string := ["globally"; "daily"].

(** [value in choices] *)
Definition in_choices (value : string) (choices : list string) : bool :=
  existsb (String.eqb value) choices.

(** The positionals are filled from the left, each converted and checked
    against its choices as it is filled; a positional that is left without a
    token is reported after that, and left-over tokens last of all. *)
Definition parse_positionals (args : list string) : parse_result :=
  match args with
  | [] => ParseError (Required ["BIRDER"; "WATCHER"; "DAYS"])
  | b :: args1 =>
      if negb (in_choices b birder_choices)
      then ParseError (InvalidChoice "BIRDER" b birder_choices)
      else match args1 with
      | [] => ParseError (Required ["WATCHER"; "DAYS"])
      | w :: args2 =>
          if negb (in_choices w watcher_choices)
          then ParseError (InvalidChoice "WATCHER" w watcher_choices)
          else match args2 with
          | [] => ParseError (Required ["DAYS"])
          | d :: extras =>
              match python_int d with
              | None => ParseError (InvalidInt "DAYS" d)
              | Some n =>
                  match extras with
                  | [] => Parsed {| BIRDER := b; WATCHER := w; DAYS := n |}
                  | _ :: _ => ParseError (Unrecognized extras)
                  end
              end
          end
      end
  end.

(** [parser.parse_args(args)].  Command lines with a token in option syntax
    are not modelled further. *)
Definition parse_args (args : list string) : parse_result :=
  if forallb positional_token args then parse_positionals args
  else OptionSyntax.

(** The argument that an error names, if it names one. *)
Definition error_dest (e : usage_error) : option string :=
  match e with
  | InvalidChoice dest _ _ => Some dest
  | InvalidInt dest _ => Some dest
  | Required _ => None
  | Unrecognized _ => None
  end.

(** ** The [random] module

    [random.choice] and [random.randint] are methods of one hidden
    [random.Random] instance.  Both are written over [_randbelow(n)], which
    returns an integer in [[0, n)] for [n > 0] and advances the instance.  The
    interface keeps the bit generator abstract. *)
Class RandomGen := {
  rng_state : Type;
  seed : Z -> rng_state;
  randbelow : Z -> rng_state -> Z * rng_state;
  randbelow_range : forall n s, 0 < n -> 0 <= fst (randbelow n s) < n
}.

(** ** Generator objects

    The frame of a [birder_generator(days)] object: created but not started
    (the body has not run, [range(days)] is not yet evaluated), suspended at
    the [yield] with [todo] items left in the range iterator, or finished. *)
Inductive frame :=
| GenCreated (days : Z)
| GenSuspended (todo : nat)
| GenDone.

Abbreviation gen_ref := nat (only parsing).

(** What [for day in day_iterator] can be given, and the iterator it loops
    on: a list gets a fresh list iterator, a generator object is its own
    iterator. *)
Inductive iterable :=
| IList (days : list string)
| IGen (r : gen_ref).

Inductive iterator :=
| ListIter (rest : list string)
| GenIter (r : gen_ref).

Definition iter (it : iterable) : iterator :=
  match it with
  | IList days => ListIter days
  | IGen r => GenIter r
  end.

Section Simulation.

Context {G : RandomGen}.

(** ** The state of a run

    [history] is a ghost field: the Day Records in the order
    [make_birds_for_day] returned them.  No function reads it. *)
Record World := {
  rng : rng_state;
  store : list frame;
  stdout : list string;
  history : list string
}.

Definition M (A : Type) : Type := World -> A * World.

Definition ret {A} (a : A) : M A := fun w => (a, w).

Definition bind {A B} (m : M A) (k : A -> M B) : M B :=
  fun w => let (a, w') := m w in k a w'.

Notation "'let*' x ':=' m 'in' k" := (bind m (fun x => k))
  (at level 10, x name, m at level 100, k at level 200).
Notation "m ';;' k" := (bind m (fun _ => k))
  (at level 100, k at level 200, right associativity).

Definition start (s : rng_state) : World :=
  {| rng := s; store := []; stdout := []; history := [] |}.

(** [self._randbelow(n)] on the hidden instance. *)
Definition draw (n : Z) : M Z := fun w =>
  let (r, s) := randbelow n (rng w) in
  (r, {| rng := s; store := store w; stdout := stdout w; history := history w |}).

(** [print(line)] *)
Definition print (line : string) : M unit := fun w =>
  (tt, {| rng := rng w; store := store w; stdout := stdout w ++ [line];
          history := history w |}).

Definition record_day (day : string) : M unit := fun w =>
  (tt, {| rng := rng w; store := store w; stdout := stdout w;
          history := history w ++ [day] |}).

Definition new_frame (f : frame) : M gen_ref := fun w =>
  (List.length (store w),
   {| rng := rng w; store := store w ++ [f]; stdout := stdout w;
      history := history w |}).

Definition get_frame (r : gen_ref) : M (option frame) := fun w =>
  (store w !! r, w).

Definition set_frame (r : gen_ref) (f : frame) : M unit := fun w =>
  (tt, {| rng := rng w; store := <[r := f]> (store w); stdout := stdout w;
          history := history w |}).

(** [random.choice(seq)] is [seq[self._randbelow(len(seq))]].  On an empty
    [seq] Python raises; the script only calls it on [_BIRDS]. *)
Definition choice (seq : list string) : M string :=
  let* i := draw (len seq) in ret (nth (Z.to_nat i) seq EmptyString).

(** [random.randint(a, b)] is [a + self._randbelow(b - a + 1)]. *)
Definition randint (a b : Z) : M Z :=
  let* r := draw (b - a + 1) in ret (a + r).

(** [[body for _ in range(n)]], and the generator expression that [join]
    consumes. *)
Fixpoint repeatM {A} (n : nat) (body : M A) : M (list A) :=
  match n with
  | O => ret []
  | S k => let* x := body in let* xs := repeatM k body in ret (x :: xs)
  end.

(** ** The birder *)

(** The argument of the generator expression, [random.randint(100, 1000)],
    is evaluated first; [join] then pulls that many [random.choice(_BIRDS)]. *)
Definition make_birds_for_day : M string :=
  let* n := randint 100 1000 in
  let* labels := repeatM (range_len n) (choice _BIRDS) in
  let day := join " " labels in
  record_day day ;; ret day.

(** Calling a generator function only creates the object. *)
Definition birder_generator (days : Z) : M gen_ref :=
  new_frame (GenCreated days).

(** One turn of [for _ in range(days): yield make_birds_for_day()] with
    [todo] items left in the range. *)
Definition gen_resume (r : gen_ref) (todo : nat) : M (option string) :=
  match todo with
  | O => set_frame r GenDone ;; ret None
  | S k =>
      set_frame r (GenSuspended k) ;;
      let* day := make_birds_for_day in
      ret (Some day)
  end.

(** [next(g)] on a generator object; [None] is [StopIteration]. *)
Definition gen_next (r : gen_ref) : M (option string) :=
  let* f := get_frame r in
  match f with
  | Some (GenCreated days) => gen_resume r (range_len days)
  | Some (GenSuspended todo) => gen_resume r todo
  | Some GenDone => ret None
  | None => ret None
  end.

Definition birder_list (days : Z) : M (list string) :=
  repeatM (range_len days) make_birds_for_day.

(** ** The watcher *)

(** [next(it)] on either kind of iterator. *)
Definition next (it : iterator) : M (option string * iterator) :=
  match it with
  | ListIter [] => ret (None, ListIter [])
  | ListIter (day :: rest) => ret (Some day, ListIter rest)
  | GenIter r => let* day := gen_next r in ret (day, GenIter r)
  end.

(** [for day in it: acc = body(day, acc)].  The loop runs until the iterator
    is exhausted; [fuel] bounds the number of [next] calls and [None] means
    it ran out. *)
Fixpoint for_loop {A} (fuel : nat) (body : string -> A -> A)
    (it : iterator) (acc : A) : M (option A) :=
  match fuel with
  | O => ret None
  | S fuel' =>
      let* step := next it in
      match step with
      | (None, _) => ret (Some acc)
      | (Some day, it') => for_loop fuel' body it' (body day acc)
      end
  end.

Definition watcher_daily (fuel : nat) (bird : string) (day_iterator : iterable)
  : M (option Z) :=
  for_loop fuel (fun day count => count + len (find_bird_in_day bird day))
    (iter day_iterator) 0.

Definition watcher_global (fuel : nat) (bird : string) (day_iterator : iterable)
  : M (option Z) :=
  let* birds :=
    for_loop fuel (fun day birds => (birds ++ find_bird_in_day bird day)%list)
      (iter day_iterator) [] in
  ret (option_map len birds).

(** ** The script *)

Definition dquote : string := String (ascii_of_nat 34) EmptyString.

Definition birder_hullo (birder : string) (days : Z) : string :=
  "BIRDER - " ++ dquote ++ "Hullo! I am the birder! I will use a " ++ birder
  ++ ". I will generator for " ++ format_int days ++ " days!" ++ dquote.

Definition watcher_hail (watcher bird : string) : string :=
  "WATCHER - " ++ dquote ++ "Hail! I am the watcher! I will count " ++ watcher
  ++ ". I am looking for " ++ bird ++ "." ++ dquote.

Definition watcher_behold (count : Z) : string :=
  "WATCHER - " ++ dquote ++ "Behold! " ++ format_int count ++ " birds!"
  ++ dquote.

(** [elapsed] is the text of ['{:.2f}'.format(process_time())]. *)
Definition birder_took (elapsed : string) : string :=
  "BIRDER - " ++ dquote ++ "That took " ++ elapsed ++ " seconds!".

(** How a call of [main] ends: it returns, the parser exits with a usage
    error, the command line is outside the model, or the model's loop ran out
    of fuel. *)
Inductive outcome :=
| Returned
| UsageError (e : usage_error)
| NotModelled
| OutOfFuel.

Definition main (fuel : nat) (elapsed : string) (args : list string)
  : M outcome :=
  match parse_args args with
  | ParseError e => ret (UsageError e)
  | OptionSyntax => ret NotModelled
  | Parsed namespace =>
      let* bird := choice _BIRDS in
      print (birder_hullo (BIRDER namespace) (DAYS namespace)) ;;
      print (watcher_hail (WATCHER namespace) bird) ;;
      let* day_iterator :=
        if String.eqb (BIRDER namespace) "list"
        then let* days := birder_list (DAYS namespace) in ret (IList days)
        else let* g := birder_generator (DAYS namespace) in ret (IGen g) in
      let* count :=
        if String.eqb (WATCHER namespace) "globally"
        then watcher_global fuel bird day_iterator
        else watcher_daily fuel bird day_iterator in
      match count with
      | None => ret OutOfFuel
      | Some count =>
          print (watcher_behold count) ;;
          print (birder_took elapsed) ;;
          ret Returned
      end
  end.

(** [random.seed(a); exit(main())] with the command line [args]; the script
    itself runs with [a = 420]. *)
Definition run (a : Z) (fuel : nat) (elapsed : string) (args : list string)
  : outcome * World :=
  main fuel elapsed args (start (seed a)).


(** ** The sequence of Day Records behind a run

    The day that the next call of [make_birds_for_day] returns and the state
    it leaves the generator of [random] in, and the same for [n] calls in a
    row.  These only read the state of [random]. *)
Definition next_day (s : rng_state) : string * rng_state :=
  let (day, w) := make_birds_for_day (start s) in (day, rng w).

Fixpoint days_from (n : nat) (s : rng_state) : list string * rng_state :=
  match n with
  | O => ([], s)
  | S k =>
      let (day, s1) := next_day s in
      let (days, s2) := days_from k s1 in
      (day :: days, s2)
  end.

(** The labels of one day, before they are joined. *)
Definition day_labels : M (list string) :=
  let* n := randint 100 1000 in repeatM (range_len n) (choice _BIRDS).

(** [w] after the generator of [random] moved to [s] and [days] were made. *)
Definition evolve (s : rng_state) (days : list string) (w : World) : World :=
  {| rng := s; store := store w; stdout := stdout w;
     history := history w ++ days |}.

Definition set_store (st : list frame) (w : World) : World :=
  {| rng := rng w; store := st; stdout := stdout w; history := history w |}.

Definition add_stdout (lines : list string) (w : World) : World :=
  {| rng := rng w; store := store w; stdout := stdout w ++ lines;
     history := history w |}.

(** The items a generator object still has to yield, and [w] after the
    object [r] moved to the frame [f] while [days] were made. *)
Definition gen_left (f : frame) : nat :=
  match f with
  | GenCreated days => range_len days
  | GenSuspended todo => todo
  | GenDone => O
  end.

Definition gen_world (r : gen_ref) (f : frame) (s : rng_state)
    (days : list string) (w : World) : World :=
  {| rng := s; store := <[r := f]> (store w); stdout := stdout w;
     history := history w ++ days |}.

(** [m] reads and writes nothing of the world but the state of [random]. *)
Definition rng_only {A} (m : M A) : Prop :=
  forall w,
    m w = (fst (m (start (rng w))), evolve (rng (snd (m (start (rng w))))) [] w).

End Simulation.

Notation "'let*' x ':=' m 'in' k" := (bind m (fun x => k))
  (at level 10, x name, m at level 100, k at level 200).
Notation "m ';;' k" := (bind m (fun _ => k))
  (at level 100, k at level 200, right associativity).

(** The number of elements equal to [bird] across all of [days], an element
    of a day being a piece between spaces. *)
Definition total_occurrences (bird : string) (days : list string) : Z :=
  Z.of_nat (count_occ string_dec (flat_map (split space) days) bird).

(** ** The [random] module as an ideal source

    The birder's functions once more, over an ideal source of randomness in
    place of a given generator: a computation is a tree that asks for draws,
    [Below n k] being [self._randbelow(n)] followed by [k] on the value
    drawn.  [expect] weighs the values of a tree as such a source does: each
    of the [n] values of a draw below [n] has weight [1 / n], whatever was
    drawn before. *)
Module Ideal.

Inductive Rand (A : Type) : Type :=
| Done (a : A)
| Below (n : Z) (k : Z -> Rand A).

Arguments Done {A} a.
Arguments Below {A} n k.

Fixpoint bind {A B} (m : Rand A) (f : A -> Rand B) : Rand B :=
  match m with
  | Done a => f a
  | Below n k => Below n (fun r => bind (k r) f)
  end.

(** [random.choice(seq)] *)
Definition choice (seq : list string) : Rand string :=
  Below (len seq) (fun i => Done (nth (Z.to_nat i) seq EmptyString)).

(** [random.randint(a, b)] *)
Definition randint (a b : Z) : Rand Z :=
  Below (b - a + 1) (fun r => Done (a + r)).

Fixpoint repeatR {A} (n : nat) (body : Rand A) : Rand (list A) :=
  match n with
  | O => Done []
  | S k => bind body (fun x => bind (repeatR k body) (fun xs => Done (x :: xs)))
  end.

Definition make_birds_for_day : Rand string :=
  bind (randint 100 1000) (fun n =>
  bind (repeatR (range_len n) (choice _BIRDS)) (fun labels =>
  Done (join " " labels))).

Definition birder_list (days : Z) : Rand (list string) :=
  repeatR (range_len days) make_birds_for_day.

(** The value of a tree on given draws, and the draws it leaves. *)
Fixpoint replay {A} (m : Rand A) (draws : list Z) : option (A * list Z) :=
  match m with
  | Done a => Some (a, draws)
  | Below n k =>
      match draws with
      | [] => None
      | r :: rest =>
          if ((0 <=? r) && (r <? n))%Z then replay (k r) rest else None
      end
  end.

(** The values [0], ..., [n - 1] of a draw below [n]. *)
Definition values (n : Z) : list Z := List.map Z.of_nat (seq 0 (Z.to_nat n)).

Definition sumQc (l : list Qc) : Qc := fold_right Qcplus (Q2Qc 0) l.

Definition Qc_of_Z (n : Z) : Qc := Q2Qc (inject_Z n).

Fixpoint expect {A} (m : Rand A) (f : A -> Qc) : Qc :=
  match m with
  | Done a => f a
  | Below n k =>
      (/ Qc_of_Z n * sumQc (List.map (fun r => expect (k r) f) (values n)))%Qc
  end.

(** The probability that the value of [m] passes the test [event]. *)
Definition prob {A} (m : Rand A) (event : A -> bool) : Qc :=
  expect m (fun a => if event a then Q2Qc 1 else Q2Qc 0).

(** Every draw of the tree is below a positive bound. *)
Fixpoint proper {A} (m : Rand A) : Prop :=
  match m with
  | Done _ => True
  | Below n k => 0 < n /\ forall r, 0 <= r < n -> proper (k r)
  end.

(** Every value that the tree can end in has the property [P]. *)
Fixpoint always {A} (P : A -> Prop) (m : Rand A) : Prop :=
  match m with
  | Done a => P a
  | Below n k => forall r, 0 <= r < n -> always P (k r)
  end.

End Ideal.

Section Play.

Context {G : RandomGen}.

(** A tree run on the generator of [random] that the world holds. *)
Fixpoint play {A} (m : Ideal.Rand A) : M A :=
  match m with
  | Ideal.Done a => ret a
  | Ideal.Below n k => let* r := draw n in play (k r)
  end.

End Play.

(** A small linear congruential generator, to run the model on. *)
Definition lcg_next (s : Z) : Z := (1103515245 * s + 12345) mod 2147483648.

Definition lcg_randbelow (n : Z) (s : Z) : Z * Z :=
  let s' := lcg_next s in ((s' / 65536) mod n, s').

Lemma lcg_randbelow_range n s : 0 < n -> 0 <= fst (lcg_randbelow n s) < n.
Proof. intros Hn. unfold lcg_randbelow. simpl. apply Z.mod_pos_bound. exact Hn. Qed.

Definition Lcg : RandomGen := {|
  rng_state := Z;
  seed := fun a => a mod 2147483648;
  randbelow := lcg_randbelow;
  randbelow_range := lcg_randbelow_range
|}.

(** The state in which the script calls [main]. *)
Definition seeded : World (G := Lcg) := start (seed 420).

(** * Properties *)

(** ** [split] and [join] *)

Lemma split_not_nil sep s : split sep s <> [].
Proof.
  destruct s as [|c rest]; simpl; [discriminate|].
  destruct (Ascii.eqb c sep); [discriminate|].
  destruct (split sep rest); discriminate.
Qed.

Lemma join_cons_char sep c w ws :
  join sep (String c w :: ws) = String c (join sep (w :: ws)).
Proof. destruct ws; reflexivity. Qed.

Lemma join_cons_cons sep x y rest :
  join sep (x :: y :: rest) = x ++ sep ++ join sep (y :: rest).
Proof. reflexivity. Qed.

(** Joining the pieces with the separator gives the text back. *)
Lemma join_split sep s : join (String sep EmptyString) (split sep s) = s.
Proof.
  induction s as [|c rest IH]; simpl; [reflexivity|].
  destruct (Ascii.eqb_spec c sep) as [->|Hne].
  - pose proof (split_not_nil sep rest) as Hnil.
    destruct (split sep rest) as [|w ws]; [contradiction|].
    rewrite join_cons_cons, IH. reflexivity.
  - pose proof (split_not_nil sep rest) as Hnil.
    destruct (split sep rest) as [|w ws]; [contradiction|].
    rewrite join_cons_char, IH. reflexivity.
Qed.

(** No piece contains the separator. *)
Lemma split_no_sep sep s :
  Forall (fun x => has_char sep x = false) (split sep s).
Proof.
  induction s as [|c rest IH]; simpl.
  - constructor; [reflexivity|constructor].
  - destruct (Ascii.eqb_spec c sep) as [->|Hne].
    + constructor; [reflexivity|exact IH].
    + destruct (split sep rest) as [|w ws]; simpl.
      * constructor; [|constructor]. simpl.
        destruct (Ascii.eqb_spec c sep); [contradiction|reflexivity].
      * inversion IH; subst. constructor; [|assumption]. simpl.
        destruct (Ascii.eqb_spec c sep); [contradiction|assumption].
Qed.

Lemma split_no_sep_single sep x :
  has_char sep x = false -> split sep x = [x].
Proof.
  induction x as [|c x IH]; simpl; intros H; [reflexivity|].
  apply orb_false_iff in H as [Hc Hx].
  rewrite Hc, (IH Hx). reflexivity.
Qed.

Lemma split_app_sep sep x rest :
  has_char sep x = false ->
  split sep (x ++ String sep rest) = x :: split sep rest.
Proof.
  induction x as [|c x IH]; simpl; intros H.
  - rewrite Ascii.eqb_refl. reflexivity.
  - apply orb_false_iff in H as [Hc Hx].
    rewrite Hc, (IH Hx). reflexivity.
Qed.

(** Splitting a joined list of separator-free items gives the items back.
    The empty list is the exception: [''.split(' ')] is [['']]. *)
Lemma split_join sep items :
  items <> [] ->
  Forall (fun x => has_char sep x = false) items ->
  split sep (join (String sep EmptyString) items) = items.
Proof.
  induction items as [|x rest IH]; intros Hne Hall; [contradiction|].
  inversion Hall as [|? ? Hx Hrest]; subst.
  destruct rest as [|y rest].
  - simpl. apply split_no_sep_single, Hx.
  - rewrite join_cons_cons. cbn [append].
    rewrite (split_app_sep _ _ _ Hx), IH; [reflexivity|discriminate|assumption].
Qed.

(** ** [find_bird_in_day] *)

Lemma filter_eqb_repeat bird (l : list string) :
  List.filter (fun x => String.eqb x bird) l
  = repeat bird (count_occ string_dec l bird).
Proof.
  induction l as [|x l IH]; simpl; [reflexivity|].
  destruct (String.eqb_spec x bird) as [->|Hne].
  - destruct (string_dec bird bird); [|contradiction].
    simpl. rewrite IH. reflexivity.
  - destruct (string_dec x bird); [contradiction|]. exact IH.
Qed.

Lemma find_bird_in_day_repeat bird day :
  find_bird_in_day bird day
  = repeat bird (count_occ string_dec (split space day) bird).
Proof. apply filter_eqb_repeat. Qed.

Lemma len_find_bird_in_day bird day :
  len (find_bird_in_day bird day)
  = Z.of_nat (count_occ string_dec (split space day) bird).
Proof. unfold len. rewrite find_bird_in_day_repeat, repeat_length. reflexivity. Qed.

(** C4.  The matches of [find_bird_in_day bird day] are the space-delimited
    elements of [day] that equal [bird] as strings: the elements are the
    pieces between spaces (joining them with a space gives [day] back, and no
    piece holds a space), the result is one copy of [bird] for each element
    equal to [bird], in particular as many as there are such elements, and
    nothing else is in it.  An element that differs in case or that only
    contains [bird] is not a match. *)
Theorem find_bird_in_day_exact (bird day : string) :
  join " " (split space day) = day /\
  Forall (fun x => has_char space x = false) (split space day) /\
  find_bird_in_day bird day
    = repeat bird (count_occ string_dec (split space day) bird) /\
  (forall x, In x (find_bird_in_day bird day) <->
             In x (split space day) /\ x = bird) /\
  find_bird_in_day "tit" "Tit TIT tit" = ["tit"] /\
  find_bird_in_day "tit" "titmouse blue_tit tit bushtit" = ["tit"] /\
  find_bird_in_day "tit" "tit  tit" = ["tit"; "tit"].
Proof.
  split; [apply (join_split space)|].
  split; [apply split_no_sep|].
  split; [apply find_bird_in_day_repeat|].
  split; [|repeat split; reflexivity].
  intros x. unfold find_bird_in_day. rewrite List.filter_In.
  split; intros [Hin Heq]; (split; [exact Hin|]).
  - apply String.eqb_eq, Heq.
  - apply String.eqb_eq, Heq.
Qed.

(** ** Computations that only use the generator of [random] *)

Section Facts.

Context {G : RandomGen}.

Lemma evolve_start s s0 : evolve s [] (start s0) = start s.
Proof. reflexivity. Qed.

Lemma evolve_same w : evolve (rng w) [] w = w.
Proof. destruct w. unfold evolve. simpl. rewrite app_nil_r. reflexivity. Qed.

Lemma evolve_evolve s1 s2 d1 d2 w :
  evolve s2 d2 (evolve s1 d1 w) = evolve s2 (d1 ++ d2) w.
Proof. unfold evolve. simpl. rewrite <- app_assoc. reflexivity. Qed.

Lemma rng_only_ret {A} (a : A) : rng_only (ret a).
Proof. intros w. unfold ret. simpl. rewrite evolve_same. reflexivity. Qed.

Lemma rng_only_bind {A B} (m : M A) (k : A -> M B) :
  rng_only m -> (forall a, rng_only (k a)) -> rng_only (bind m k).
Proof.
  intros Hm Hk w. unfold bind.
  rewrite (Hm w).
  pose proof (Hm (start (rng w))) as H0.
  change (rng (start (rng w))) with (rng w) in H0.
  destruct (m (start (rng w))) as [a w1]. cbn [fst snd] in *.
  injection H0 as H0. rewrite evolve_start in H0.
  rewrite (Hk a (evolve (rng w1) [] w)).
  rewrite evolve_evolve. cbn [evolve rng app].
  rewrite <- H0. reflexivity.
Qed.

Lemma rng_only_draw n : rng_only (draw n).
Proof.
  intros w. unfold draw. simpl.
  destruct (randbelow n (rng w)) as [r s]. simpl.
  unfold evolve. simpl. rewrite app_nil_r. reflexivity.
Qed.

Lemma rng_only_choice seq : rng_only (choice seq).
Proof.
  apply rng_only_bind; [apply rng_only_draw|]. intros i. apply rng_only_ret.
Qed.

Lemma rng_only_randint a b : rng_only (randint a b).
Proof.
  apply rng_only_bind; [apply rng_only_draw|]. intros i. apply rng_only_ret.
Qed.

Lemma rng_only_repeatM {A} n (body : M A) :
  rng_only body -> rng_only (repeatM n body).
Proof.
  intros Hb. induction n as [|n IH]; simpl.
  - apply rng_only_ret.
  - apply rng_only_bind; [exact Hb|]. intros x.
    apply rng_only_bind; [exact IH|]. intros xs. apply rng_only_ret.
Qed.

Lemma rng_only_day_labels : rng_only day_labels.
Proof.
  apply rng_only_bind; [apply rng_only_randint|]. intros n.
  apply rng_only_repeatM, rng_only_choice.
Qed.

Lemma make_birds_for_day_unfold w :
  make_birds_for_day w
  = let (labels, w1) := day_labels w in
    (join " " labels, evolve (rng w1) [join " " labels] w1).
Proof.
  unfold make_birds_for_day, day_labels, bind.
  destruct (randint 100 1000 w) as [n w0].
  destruct (repeatM (range_len n) (choice _BIRDS) w0) as [labels w1].
  reflexivity.
Qed.

(** A call of [make_birds_for_day] returns the next day of the sequence,
    moves the generator of [random] on and changes nothing else. *)
Lemma make_birds_for_day_spec w :
  make_birds_for_day w
  = (fst (next_day (rng w)),
     evolve (snd (next_day (rng w))) [fst (next_day (rng w))] w).
Proof.
  unfold next_day.
  rewrite (make_birds_for_day_unfold (start (rng w))).
  rewrite make_birds_for_day_unfold.
  rewrite (rng_only_day_labels w).
  destruct (day_labels (start (rng w))) as [labels w1]. simpl.
  rewrite evolve_evolve. reflexivity.
Qed.

(** ** The labels of a day *)

Lemma birds_not_nil : _BIRDS <> [].
Proof. discriminate. Qed.

Lemma birds_no_space : Forall (fun x => has_char space x = false) _BIRDS.
Proof. unfold _BIRDS. repeat constructor. Qed.

Lemma birds_NoDup : List.NoDup _BIRDS.
Proof.
  assert (H : List.nodup string_dec _BIRDS = _BIRDS)
    by (vm_compute; reflexivity).
  rewrite <- H. apply List.NoDup_nodup.
Qed.

Lemma draw_fst n w : fst (draw n w) = fst (randbelow n (rng w)).
Proof. unfold draw. destruct (randbelow n (rng w)). reflexivity. Qed.

Lemma choice_In seq w : seq <> [] -> In (fst (choice seq w)) seq.
Proof.
  intros Hne. unfold choice, bind, ret.
  pose proof (draw_fst (len seq) w) as Hd.
  destruct (draw (len seq) w) as [i w1]. simpl in *.
  assert (Hlen : 0 < len seq).
  { unfold len. destruct seq; [contradiction|]. simpl. lia. }
  pose proof (randbelow_range (len seq) (rng w) Hlen) as Hr.
  rewrite <- Hd in Hr. apply nth_In. unfold len in Hr. lia.
Qed.

Lemma repeatM_length {A} n (body : M A) w :
  List.length (fst (repeatM n body w)) = n.
Proof.
  revert w. induction n as [|n IH]; intros w; simpl; [reflexivity|].
  unfold bind. destruct (body w) as [x w1].
  specialize (IH w1). destruct (repeatM n body w1) as [xs w2].
  simpl in *. rewrite IH. reflexivity.
Qed.

Lemma repeatM_Forall {A} (P : A -> Prop) n (body : M A) w :
  (forall w', P (fst (body w'))) -> Forall P (fst (repeatM n body w)).
Proof.
  intros Hb. revert w. induction n as [|n IH]; intros w; simpl.
  - constructor.
  - unfold bind. specialize (Hb w). destruct (body w) as [x w1].
    specialize (IH w1). destruct (repeatM n body w1) as [xs w2].
    simpl in *. constructor; assumption.
Qed.

Lemma day_labels_length w :
  len (fst (day_labels w)) = 100 + fst (randbelow 901 (rng w)) /\
  0 <= fst (randbelow 901 (rng w)) < 901.
Proof.
  assert (Hr : 0 <= fst (randbelow 901 (rng w)) < 901)
    by (apply randbelow_range; lia).
  split; [|exact Hr].
  unfold day_labels, randint, bind, ret.
  change (1000 - 100 + 1) with 901.
  pose proof (draw_fst 901 w) as Hd.
  destruct (draw 901 w) as [r w1]. simpl in Hd. subst r.
  unfold len. rewrite repeatM_length. unfold range_len. lia.
Qed.

Lemma day_labels_birds w : Forall (fun x => In x _BIRDS) (fst (day_labels w)).
Proof.
  unfold day_labels, bind.
  destruct (randint 100 1000 w) as [n w1].
  apply repeatM_Forall. intros w'. apply choice_In, birds_not_nil.
Qed.

Lemma make_birds_for_day_split w :
  split space (fst (make_birds_for_day w)) = fst (day_labels w).
Proof.
  rewrite make_birds_for_day_unfold.
  pose proof (day_labels_length w) as [Hlen Hr].
  pose proof (day_labels_birds w) as Hb.
  destruct (day_labels w) as [labels w1]. cbn [fst] in *.
  apply (split_join space).
  - intros ->. unfold len in Hlen. simpl in Hlen. lia.
  - apply List.Forall_forall. intros x Hx.
    rewrite List.Forall_forall in Hb.
    pose proof birds_no_space as Hs. rewrite List.Forall_forall in Hs.
    apply Hs, Hb, Hx.
Qed.

(** ** The birder on an ideal source of randomness *)

Lemma Qc_of_Z_add a b :
  Ideal.Qc_of_Z (a + b) = (Ideal.Qc_of_Z a + Ideal.Qc_of_Z b)%Qc.
Proof.
  apply Qc_is_canon. unfold Ideal.Qc_of_Z, Qcplus. cbn [this Q2Qc].
  rewrite !Qred_correct, inject_Z_plus. reflexivity.
Qed.

Lemma Qc_of_Z_nonzero n : 0 < n -> Ideal.Qc_of_Z n <> Q2Qc 0.
Proof.
  intros Hn Heq. apply (f_equal this) in Heq.
  unfold Ideal.Qc_of_Z in Heq. cbn [this Q2Qc] in Heq.
  assert (Hq : (inject_Z n == 0)%Q).
  { rewrite <- (Qred_correct (inject_Z n)), Heq. reflexivity. }
  unfold Qeq, inject_Z in Hq. simpl in Hq. lia.
Qed.

Lemma values_In n r : In r (Ideal.values n) <-> 0 <= r < n.
Proof.
  unfold Ideal.values. rewrite in_map_iff. split.
  - intros (i & <- & Hi). apply in_seq in Hi. lia.
  - intros Hr. exists (Z.to_nat r). split; [lia|]. apply in_seq. lia.
Qed.

Lemma values_length n : List.length (Ideal.values n) = Z.to_nat n.
Proof. unfold Ideal.values. rewrite length_map, length_seq. reflexivity. Qed.

Lemma values_NoDup n : List.NoDup (Ideal.values n).
Proof.
  unfold Ideal.values. apply Finite.Injective_map_NoDup.
  - intros a b Hab. lia.
  - apply seq_NoDup.
Qed.

Lemma sumQc_const (c : Qc) (l : list Z) :
  Ideal.sumQc (List.map (fun _ => c) l)
  = (Ideal.Qc_of_Z (Z.of_nat (List.length l)) * c)%Qc.
Proof.
  induction l as [|x l IH]; cbn [List.map List.length Ideal.sumQc fold_right].
  - change (Ideal.Qc_of_Z (Z.of_nat 0)) with (Q2Qc 0). ring.
  - fold (Ideal.sumQc (List.map (fun _ => c) l)). rewrite IH.
    rewrite Nat2Z.inj_succ, <- Z.add_1_r, Qc_of_Z_add.
    change (Ideal.Qc_of_Z 1) with (Q2Qc 1). ring.
Qed.

Lemma sumQc_scale (c : Qc) (g : Z -> Qc) (l : list Z) :
  Ideal.sumQc (List.map (fun r => c * g r)%Qc l)
  = (c * Ideal.sumQc (List.map g l))%Qc.
Proof.
  induction l as [|x l IH]; cbn [List.map Ideal.sumQc fold_right].
  - ring.
  - fold (Ideal.sumQc (List.map (fun r => (c * g r)%Qc) l)).
    fold (Ideal.sumQc (List.map g l)). rewrite IH. ring.
Qed.

(** One value of the list carries the weight [x], the others none. *)
Lemma sumQc_single (c : Z) (x : Qc) (l : list Z) :
  List.NoDup l -> In c l ->
  Ideal.sumQc (List.map (fun r => if Z.eqb r c then x else Q2Qc 0) l) = x.
Proof.
  induction l as [|y l IH]; intros Hnd Hin; [contradiction|].
  cbn [List.map Ideal.sumQc fold_right].
  fold (Ideal.sumQc (List.map (fun r => if Z.eqb r c then x else Q2Qc 0) l)).
  inversion Hnd as [|? ? Hy Hl]; subst.
  destruct (Z.eqb_spec y c) as [->|Hne].
  - replace (Ideal.sumQc
               (List.map (fun r => if Z.eqb r c then x else Q2Qc 0) l))
      with (Q2Qc 0); [ring|].
    clear IH Hnd Hin Hl. induction l as [|z l IH]; [reflexivity|].
    cbn [List.map Ideal.sumQc fold_right].
    fold (Ideal.sumQc (List.map (fun r => if Z.eqb r c then x else Q2Qc 0) l)).
    destruct (Z.eqb_spec z c) as [->|Hz].
    + exfalso. apply Hy. left. reflexivity.
    + rewrite <- IH; [ring|]. intros H. apply Hy. right. exact H.
  - destruct Hin as [Heq|Hin]; [contradiction|].
    rewrite (IH Hl Hin). ring.
Qed.

Lemma expect_always {A} (m : Ideal.Rand A) (f g : A -> Qc) :
  Ideal.always (fun a => f a = g a) m ->
  Ideal.expect m f = Ideal.expect m g.
Proof.
  induction m as [a|n k IH]; cbn [Ideal.always Ideal.expect]; intros H.
  - exact H.
  - f_equal. f_equal. apply List.map_ext_in. intros r Hr.
    apply IH, H, values_In, Hr.
Qed.

Lemma expect_ext {A} (m : Ideal.Rand A) (f g : A -> Qc) :
  (forall a, f a = g a) -> Ideal.expect m f = Ideal.expect m g.
Proof.
  intros H. induction m as [a|n k IH]; cbn [Ideal.expect]; [apply H|].
  f_equal. f_equal. apply List.map_ext. exact IH.
Qed.

Lemma expect_const {A} (m : Ideal.Rand A) (c : Qc) :
  Ideal.proper m -> Ideal.expect m (fun _ => c) = c.
Proof.
  induction m as [a|n k IH]; cbn [Ideal.proper Ideal.expect];
    [reflexivity|].
  intros [Hn Hk].
  rewrite (List.map_ext_in _ (fun _ => c)).
  - rewrite sumQc_const, values_length, Z2Nat.id by lia.
    field. apply Qc_of_Z_nonzero, Hn.
  - intros r Hr. apply IH, Hk, values_In, Hr.
Qed.

Lemma expect_scale {A} (m : Ideal.Rand A) (c : Qc) (f : A -> Qc) :
  Ideal.expect m (fun a => c * f a)%Qc = (c * Ideal.expect m f)%Qc.
Proof.
  induction m as [a|n k IH]; cbn [Ideal.expect]; [reflexivity|].
  rewrite (List.map_ext _ (fun r => (c * Ideal.expect (k r) f)%Qc)) by exact IH.
  rewrite sumQc_scale. ring.
Qed.

Lemma expect_bind {A B} (m : Ideal.Rand A) (h : A -> Ideal.Rand B)
    (f : B -> Qc) :
  Ideal.expect (Ideal.bind m h) f
  = Ideal.expect m (fun a => Ideal.expect (h a) f).
Proof.
  induction m as [a|n k IH]; cbn [Ideal.bind Ideal.expect]; [reflexivity|].
  f_equal. f_equal. apply List.map_ext. exact IH.
Qed.

Lemma always_bind {A B} (P : A -> Prop) (Q : B -> Prop)
    (m : Ideal.Rand A) (h : A -> Ideal.Rand B) :
  Ideal.always P m -> (forall a, P a -> Ideal.always Q (h a)) ->
  Ideal.always Q (Ideal.bind m h).
Proof.
  intros Hm Hh. induction m as [a|n k IH]; cbn [Ideal.bind Ideal.always] in *.
  - apply Hh, Hm.
  - intros r Hr. apply IH, Hm, Hr.
Qed.

Lemma proper_bind {A B} (P : A -> Prop)
    (m : Ideal.Rand A) (h : A -> Ideal.Rand B) :
  Ideal.proper m -> Ideal.always P m ->
  (forall a, P a -> Ideal.proper (h a)) ->
  Ideal.proper (Ideal.bind m h).
Proof.
  intros Hm Ha Hh.
  induction m as [a|n k IH]; cbn [Ideal.bind Ideal.proper Ideal.always] in *.
  - apply Hh, Ha.
  - destruct Hm as [Hn Hk]. split; [exact Hn|].
    intros r Hr. apply IH; [apply Hk, Hr|apply Ha, Hr].
Qed.

Lemma choice_birds_proper : Ideal.proper (Ideal.choice _BIRDS).
Proof. cbn [Ideal.choice Ideal.proper]. split; [reflexivity|trivial]. Qed.

Lemma choice_birds_always :
  Ideal.always (fun x => In x _BIRDS) (Ideal.choice _BIRDS).
Proof.
  cbn [Ideal.choice Ideal.always]. intros r Hr. apply nth_In.
  change (len _BIRDS) with 112 in Hr. change (List.length _BIRDS) with 112%nat.
  lia.
Qed.

Lemma repeatR_proper {A} (body : Ideal.Rand A) k :
  Ideal.proper body -> Ideal.proper (Ideal.repeatR k body).
Proof.
  intros Hb. induction k as [|k IH]; cbn [Ideal.repeatR]; [exact I|].
  apply (proper_bind (fun _ => True)); [exact Hb| |].
  - clear. induction body as [a|n f IHb]; cbn [Ideal.always]; [exact I|].
    intros r _. apply IHb.
  - intros x _. apply (proper_bind (fun _ => True)); [exact IH| |].
    + clear. induction (Ideal.repeatR k body) as [a|n f IHb];
        cbn [Ideal.always]; [exact I|]. intros r _. apply IHb.
    + intros xs _. exact I.
Qed.

Lemma repeatR_always {A} (P : A -> Prop) (body : Ideal.Rand A) k :
  Ideal.always P body ->
  Ideal.always (fun l => List.length l = k /\ Forall P l)
    (Ideal.repeatR k body).
Proof.
  intros Hb. induction k as [|k IH]; cbn [Ideal.repeatR Ideal.always].
  - split; [reflexivity|constructor].
  - apply (always_bind P); [exact Hb|]. intros x Hx.
    apply (always_bind (fun l => List.length l = k /\ Forall P l));
      [exact IH|].
    intros xs [Hlen Hall]. cbn [Ideal.always List.length].
    split; [rewrite Hlen; reflexivity|constructor; assumption].
Qed.

(** The text of a day with [n] labels to draw. *)
Lemma day_text_always n :
  1 <= n ->
  Ideal.always (fun day => len (split space day) = n)
    (Ideal.bind (Ideal.repeatR (range_len n) (Ideal.choice _BIRDS))
       (fun labels => Ideal.Done (join " " labels))).
Proof.
  intros Hn.
  apply (always_bind
           (fun l => List.length l = range_len n /\
                     Forall (fun x => In x _BIRDS) l)).
  - apply repeatR_always, choice_birds_always.
  - intros labels [Hlen Hall]. cbn [Ideal.always].
    rewrite (split_join space).
    + unfold len. rewrite Hlen. unfold range_len. lia.
    + intros ->. cbn [List.length] in Hlen. unfold range_len in Hlen. lia.
    + apply List.Forall_forall. intros x Hx.
      rewrite List.Forall_forall in Hall.
      pose proof birds_no_space as Hs. rewrite List.Forall_forall in Hs.
      apply Hs, Hall, Hx.
Qed.

Lemma day_text_proper n :
  Ideal.proper
    (Ideal.bind (Ideal.repeatR (range_len n) (Ideal.choice _BIRDS))
       (fun labels => Ideal.Done (join " " labels))).
Proof.
  apply (proper_bind (fun _ => True)).
  - apply repeatR_proper, choice_birds_proper.
  - induction (Ideal.repeatR (range_len n) (Ideal.choice _BIRDS))
      as [a|m f IHb]; cbn [Ideal.always]; [exact I|]. intros r _. apply IHb.
  - intros labels _. exact I.
Qed.

Lemma make_birds_for_day_proper : Ideal.proper Ideal.make_birds_for_day.
Proof.
  unfold Ideal.make_birds_for_day, Ideal.randint.
  cbn [Ideal.bind Ideal.proper]. split; [reflexivity|].
  intros r _. apply day_text_proper.
Qed.

(** On an ideal source each number of labels from 100 to 1000 has the same
    probability, one in 901. *)
Lemma day_length_uniform size :
  100 <= size <= 1000 ->
  Ideal.prob Ideal.make_birds_for_day
    (fun day => Z.eqb (len (split space day)) size)
  = (/ Ideal.Qc_of_Z 901)%Qc.
Proof.
  intros Hsize. unfold Ideal.prob, Ideal.make_birds_for_day, Ideal.randint.
  change (1000 - 100 + 1) with 901. cbn [Ideal.bind Ideal.expect].
  rewrite (List.map_ext_in _
             (fun r => if Z.eqb r (size - 100) then Q2Qc 1 else Q2Qc 0)).
  - rewrite sumQc_single; [ring|apply values_NoDup|apply values_In; lia].
  - intros r Hr. apply values_In in Hr.
    rewrite (expect_always _ _
               (fun _ => if Z.eqb r (size - 100) then Q2Qc 1 else Q2Qc 0)).
    + apply expect_const, day_text_proper.
    + assert (Hn : 1 <= 100 + r) by lia.
      pose proof (day_text_always (100 + r) Hn) as Hall.
      revert Hall. generalize
        (Ideal.bind (Ideal.repeatR (range_len (100 + r)) (Ideal.choice _BIRDS))
           (fun labels => Ideal.Done (join " " labels))).
      intros m. induction m as [a|n f IHm]; cbn [Ideal.always].
      * intros ->. destruct (Z.eqb_spec (100 + r) size);
          destruct (Z.eqb_spec r (size - 100)); try reflexivity; lia.
      * intros H x Hx. apply IHm, H, Hx.
Qed.

Lemma lengths_indicator (sizes : list Z) (size : Z) (d : string)
    (ds : list string) :
  (if bool_decide
        (List.map (fun day => len (split space day)) (d :: ds) = size :: sizes)
   then Q2Qc 1 else Q2Qc 0)
  = ((if Z.eqb (len (split space d)) size then Q2Qc 1 else Q2Qc 0)
     * (if bool_decide
             (List.map (fun day => len (split space day)) ds = sizes)
        then Q2Qc 1 else Q2Qc 0))%Qc.
Proof.
  cbn [List.map].
  destruct (Z.eqb_spec (len (split space d)) size) as [Hd|Hd];
    repeat case_bool_decide; try ring; exfalso.
  - congruence.
  - congruence.
  - congruence.
  - congruence.
Qed.

(** On an ideal source the numbers of labels of the days of a run are
    independent: each list of sizes from 100 to 1000, one for each day, has
    the probability of one in 901 for each day. *)
Lemma day_lengths_independent (sizes : list Z) :
  Forall (fun size => 100 <= size <= 1000) sizes ->
  Ideal.prob (Ideal.repeatR (List.length sizes) Ideal.make_birds_for_day)
    (fun days =>
       bool_decide
         (List.map (fun day => len (split space day)) days = sizes))
  = ((/ Ideal.Qc_of_Z 901) ^ List.length sizes)%Qc.
Proof.
  unfold Ideal.prob.
  induction 1 as [|size sizes Hsize Hall IH]; [reflexivity|].
  cbn [List.length Ideal.repeatR]. rewrite expect_bind.
  rewrite (expect_ext _ _
             (fun d =>
                ((/ Ideal.Qc_of_Z 901) ^ List.length sizes
                 * (if Z.eqb (len (split space d)) size
                    then Q2Qc 1 else Q2Qc 0))%Qc)).
  - rewrite expect_scale. fold (Ideal.prob Ideal.make_birds_for_day
                                  (fun day => Z.eqb (len (split space day)) size)).
    rewrite (day_length_uniform _ Hsize). cbn [Qcpower]. ring.
  - intros d. rewrite expect_bind. cbn [Ideal.expect].
    rewrite (expect_ext _ _
               (fun ds =>
                  ((if Z.eqb (len (split space d)) size
                    then Q2Qc 1 else Q2Qc 0)
                   * (if bool_decide
                           (List.map (fun day => len (split space day)) ds
                            = sizes)
                      then Q2Qc 1 else Q2Qc 0))%Qc)).
    + rewrite expect_scale, IH. ring.
    + intros ds. apply lengths_indicator.
Qed.

Lemma replay_bind {A B} (m : Ideal.Rand A) (h : A -> Ideal.Rand B) :
  forall draws,
  Ideal.replay (Ideal.bind m h) draws
  = match Ideal.replay m draws with
    | Some (a, rest) => Ideal.replay (h a) rest
    | None => None
    end.
Proof.
  induction m as [a|n k IH]; intros draws; cbn [Ideal.bind Ideal.replay];
    [reflexivity|].
  destruct draws as [|r rest]; [reflexivity|].
  destruct ((0 <=? r) && (r <? n))%Z; [apply IH|reflexivity].
Qed.

(** [random.choice(seq)] called once for each of the draws [cs] returns the
    items of [seq] at those places and uses the draws up. *)
Lemma replay_repeat_choice (seq : list string) (cs rest : list Z) :
  Forall (fun c => 0 <= c < len seq) cs ->
  Ideal.replay (Ideal.repeatR (List.length cs) (Ideal.choice seq)) (cs ++ rest)
  = Some (List.map (fun c => nth (Z.to_nat c) seq EmptyString) cs, rest).
Proof.
  induction 1 as [|c cs Hc Hcs IH]; [reflexivity|].
  cbn [List.length Ideal.repeatR]. rewrite replay_bind.
  cbn [Ideal.choice Ideal.replay app].
  replace ((0 <=? c) && (c <? len seq))%Z with true
    by (symmetry; apply andb_true_iff; split;
        [apply Z.leb_le|apply Z.ltb_lt]; lia).
  rewrite replay_bind, IH. reflexivity.
Qed.

Lemma replay_make_birds_for_day (r : Z) (cs : list Z) :
  0 <= r < 901 ->
  List.length cs = Z.to_nat (100 + r) ->
  Forall (fun c => 0 <= c < 112) cs ->
  Ideal.replay Ideal.make_birds_for_day (r :: cs)
  = Some (join " " (List.map (fun c => nth (Z.to_nat c) _BIRDS EmptyString) cs),
          []).
Proof.
  intros Hr Hlen Hcs. unfold Ideal.make_birds_for_day, Ideal.randint.
  change (1000 - 100 + 1) with 901. cbn [Ideal.bind Ideal.replay].
  replace ((0 <=? r) && (r <? 901))%Z with true
    by (symmetry; apply andb_true_iff; split;
        [apply Z.leb_le|apply Z.ltb_lt]; lia).
  rewrite replay_bind.
  replace (range_len (100 + r)) with (List.length cs)
    by (rewrite Hlen; unfold range_len; lia).
  rewrite <- (app_nil_r cs) at 2.
  rewrite (replay_repeat_choice _BIRDS cs [] Hcs). reflexivity.
Qed.

Lemma always_weaken {A} (P Q : A -> Prop) (m : Ideal.Rand A) :
  (forall a, P a -> Q a) -> Ideal.always P m -> Ideal.always Q m.
Proof.
  intros HPQ. induction m as [a|n k IH]; cbn [Ideal.always].
  - apply HPQ.
  - intros H r Hr. apply IH, H, Hr.
Qed.

(** Each place of a repeated draw is distributed as one draw. *)
Lemma expect_repeat_nth {A} (body : Ideal.Rand A) (h : A -> Qc) (d : A) :
  Ideal.proper body ->
  forall k j, (j < k)%nat ->
  Ideal.expect (Ideal.repeatR k body) (fun l => h (nth j l d))
  = Ideal.expect body h.
Proof.
  intros Hb. induction k as [|k IH]; intros j Hj; [lia|].
  cbn [Ideal.repeatR]. rewrite expect_bind.
  destruct j as [|j].
  - apply expect_ext. intros x. rewrite expect_bind. cbn [Ideal.expect nth].
    apply expect_const, repeatR_proper, Hb.
  - rewrite (expect_ext _ _ (fun _ => Ideal.expect body h)).
    + apply expect_const, Hb.
    + intros x. rewrite expect_bind. cbn [Ideal.expect nth].
      apply IH. lia.
Qed.

(** On an ideal source [random.choice(_BIRDS)] returns each bird of the
    catalog with the same probability, one in 112. *)
Lemma choice_birds_uniform (bird : string) :
  In bird _BIRDS ->
  Ideal.prob (Ideal.choice _BIRDS) (fun x => String.eqb x bird)
  = (/ Ideal.Qc_of_Z 112)%Qc.
Proof.
  intros Hin. unfold Ideal.prob, Ideal.choice.
  change (len _BIRDS) with 112. cbn [Ideal.expect].
  destruct (In_nth _ _ EmptyString Hin) as (i & Hi & Hnth).
  change (List.length _BIRDS) with 112%nat in Hi.
  rewrite (List.map_ext_in _
             (fun r => if Z.eqb r (Z.of_nat i) then Q2Qc 1 else Q2Qc 0)).
  - rewrite sumQc_single; [ring|apply values_NoDup|apply values_In; lia].
  - intros r Hr. apply values_In in Hr.
    destruct (Z.eqb_spec r (Z.of_nat i)) as [->|Hne].
    + rewrite Nat2Z.id, Hnth, String.eqb_refl. reflexivity.
    + destruct (String.eqb_spec (nth (Z.to_nat r) _BIRDS EmptyString) bird)
        as [Heq|_]; [|reflexivity].
      exfalso. apply Hne.
      assert (Hidx : Z.to_nat r = i).
      { apply (proj1 (List.NoDup_nth _BIRDS EmptyString) birds_NoDup);
          change (List.length _BIRDS) with 112%nat; try lia.
        rewrite Heq, Hnth. reflexivity. }
      lia.
Qed.

(** On an ideal source each of the first hundred labels of a day, which
    every day has, is each bird of the catalog with probability one in
    112. *)
Lemma day_label_uniform (j : nat) (bird : string) :
  (j < 100)%nat -> In bird _BIRDS ->
  Ideal.prob Ideal.make_birds_for_day
    (fun day => String.eqb (nth j (split space day) EmptyString) bird)
  = (/ Ideal.Qc_of_Z 112)%Qc.
Proof.
  intros Hj Hin. unfold Ideal.prob, Ideal.make_birds_for_day, Ideal.randint.
  change (1000 - 100 + 1) with 901. cbn [Ideal.bind Ideal.expect].
  rewrite (List.map_ext_in _ (fun _ => (/ Ideal.Qc_of_Z 112)%Qc)).
  - rewrite sumQc_const, values_length.
    change (Z.of_nat (Z.to_nat 901)) with 901.
    field. split; apply Qc_of_Z_nonzero; reflexivity.
  - intros r Hr. apply values_In in Hr. rewrite expect_bind.
    cbn [Ideal.expect].
    rewrite (expect_always _ _
               (fun labels =>
                  if String.eqb (nth j labels EmptyString) bird
                  then Q2Qc 1 else Q2Qc 0)).
    + rewrite (expect_repeat_nth (Ideal.choice _BIRDS)
                 (fun x => if String.eqb x bird then Q2Qc 1 else Q2Qc 0)
                 EmptyString choice_birds_proper).
      * apply (choice_birds_uniform bird Hin).
      * unfold range_len. lia.
    + apply (always_weaken
               (fun l => List.length l = range_len (100 + r) /\
                         Forall (fun x => In x _BIRDS) l)).
      * intros labels [Hlen Hall]. rewrite (split_join space); [reflexivity| |].
        -- intros ->. cbn [List.length] in Hlen. unfold range_len in Hlen. lia.
        -- apply List.Forall_forall. intros x Hx.
           rewrite List.Forall_forall in Hall.
           pose proof birds_no_space as Hs. rewrite List.Forall_forall in Hs.
           apply Hs, Hall, Hx.
      * apply repeatR_always, choice_birds_always.
Qed.

Lemma play_bind {A B} (m : Ideal.Rand A) (h : A -> Ideal.Rand B) : forall w,
  play (Ideal.bind m h) w = (let (a, w') := play m w in play (h a) w').
Proof.
  induction m as [a|n k IH]; intros w; cbn [Ideal.bind play]; [reflexivity|].
  unfold bind. destruct (draw n w) as [r w1]. apply IH.
Qed.

Lemma play_repeat {A} (body : Ideal.Rand A) k : forall w,
  play (Ideal.repeatR k body) w = repeatM k (play body) w.
Proof.
  induction k as [|k IH]; intros w; cbn [Ideal.repeatR repeatM];
    [reflexivity|].
  rewrite play_bind. unfold bind. destruct (play body w) as [x w1].
  rewrite play_bind, IH. destruct (repeatM k (play body) w1) as [xs w2].
  reflexivity.
Qed.

(** [make_birds_for_day] is the birder's function on an ideal source, run on
    the generator of [random] that the world holds. *)
Lemma make_birds_for_day_play w :
  make_birds_for_day w
  = (let* day := play Ideal.make_birds_for_day in record_day day ;; ret day) w.
Proof.
  unfold make_birds_for_day, Ideal.make_birds_for_day, bind.
  rewrite play_bind.
  change (play (Ideal.randint 100 1000) w) with (randint 100 1000 w).
  destruct (randint 100 1000 w) as [n w1].
  rewrite play_bind, play_repeat.
  change (play (Ideal.choice _BIRDS)) with (choice _BIRDS).
  destruct (repeatM (range_len n) (choice _BIRDS) w1) as [labels w2].
  reflexivity.
Qed.

Lemma next_day_fst s : fst (next_day s) = fst (make_birds_for_day (start s)).
Proof.
  unfold next_day. destruct (make_birds_for_day (start s)). reflexivity.
Qed.

(** ** The birder *)

Lemma days_from_S k s :
  days_from (S k) s
  = (fst (next_day s) :: fst (days_from k (snd (next_day s))),
     snd (days_from k (snd (next_day s)))).
Proof.
  simpl. destruct (next_day s) as [d s1]. cbn [fst snd].
  destruct (days_from k s1) as [ds s2]. reflexivity.
Qed.

Lemma days_from_length n s : List.length (fst (days_from n s)) = n.
Proof.
  revert s. induction n as [|n IH]; intros s; [reflexivity|].
  rewrite days_from_S. simpl. rewrite IH. reflexivity.
Qed.

Lemma days_from_add a b s :
  days_from (a + b) s
  = ((fst (days_from a s) ++ fst (days_from b (snd (days_from a s))))%list,
     snd (days_from b (snd (days_from a s)))).
Proof.
  revert s. induction a as [|a IH]; intros s.
  - simpl. destruct (days_from b s). reflexivity.
  - change (S a + b)%nat with (S (a + b)).
    rewrite !days_from_S, IH. reflexivity.
Qed.

Lemma repeatM_make_birds n w :
  repeatM n make_birds_for_day w
  = (fst (days_from n (rng w)),
     evolve (snd (days_from n (rng w))) (fst (days_from n (rng w))) w).
Proof.
  revert w. induction n as [|n IH]; intros w.
  - simpl. unfold ret. rewrite evolve_same. reflexivity.
  - rewrite days_from_S. cbn [repeatM]. unfold bind, ret.
    rewrite make_birds_for_day_spec, IH. cbn [evolve rng fst snd].
    unfold evolve. cbn. rewrite <- app_assoc. reflexivity.
Qed.

(** [birder_list(days)] returns the next [len(range(days))] days of the
    sequence. *)
Lemma birder_list_spec days w :
  birder_list days w
  = (fst (days_from (range_len days) (rng w)),
     evolve (snd (days_from (range_len days) (rng w)))
       (fst (days_from (range_len days) (rng w))) w).
Proof. apply repeatM_make_birds. Qed.

Lemma gen_world_same r f w :
  store w !! r = Some f -> gen_world r f (rng w) [] w = w.
Proof.
  intros Hf. destruct w as [s st out h]. unfold gen_world.
  cbn [rng store stdout history] in *.
  rewrite (list_insert_id _ _ _ Hf), app_nil_r. reflexivity.
Qed.

Lemma gen_world_gen_world r f1 f2 s1 s2 d1 d2 w :
  gen_world r f2 s2 d2 (gen_world r f1 s1 d1 w)
  = gen_world r f2 s2 (d1 ++ d2) w.
Proof.
  unfold gen_world. cbn [rng store stdout history].
  rewrite list_insert_insert_eq, <- app_assoc. reflexivity.
Qed.

Lemma gen_world_lookup r f s d w f0 :
  store w !! r = Some f0 -> store (gen_world r f s d w) !! r = Some f.
Proof.
  intros Hf. cbn [gen_world store]. apply list_lookup_insert_eq.
  apply (lookup_lt_Some _ _ _ Hf).
Qed.

Lemma gen_resume_S r k w :
  gen_resume r (S k) w
  = (Some (fst (next_day (rng w))),
     gen_world r (GenSuspended k) (snd (next_day (rng w)))
       [fst (next_day (rng w))] w).
Proof.
  unfold gen_resume, bind, set_frame, ret.
  rewrite make_birds_for_day_spec. reflexivity.
Qed.

Lemma gen_resume_O r w :
  gen_resume r O w = (None, gen_world r GenDone (rng w) [] w).
Proof.
  unfold gen_resume, bind, set_frame, ret, gen_world.
  rewrite app_nil_r. reflexivity.
Qed.

(** A pull from a generator object with items left yields the next day of
    the sequence. *)
Lemma gen_next_some r f k w :
  store w !! r = Some f -> gen_left f = S k ->
  gen_next r w
  = (Some (fst (next_day (rng w))),
     gen_world r (GenSuspended k) (snd (next_day (rng w)))
       [fst (next_day (rng w))] w).
Proof.
  intros Hf Hk. unfold gen_next, bind, get_frame. rewrite Hf.
  destruct f as [days|todo|]; simpl in Hk.
  - rewrite Hk. apply gen_resume_S.
  - rewrite Hk. apply gen_resume_S.
  - discriminate.
Qed.

(** A pull from a generator object with nothing left raises
    [StopIteration] and makes no day. *)
Lemma gen_next_none r f w :
  store w !! r = Some f -> gen_left f = O ->
  gen_next r w = (None, gen_world r GenDone (rng w) [] w).
Proof.
  intros Hf Hk. unfold gen_next, bind, get_frame. rewrite Hf.
  destruct f as [days|todo|]; simpl in Hk.
  - rewrite Hk. apply gen_resume_O.
  - rewrite Hk. apply gen_resume_O.
  - unfold ret. rewrite (gen_world_same _ _ _ Hf). reflexivity.
Qed.

Lemma repeatM_S {A} n (body : M A) w :
  repeatM (S n) body w
  = (fst (body w) :: fst (repeatM n body (snd (body w))),
     snd (repeatM n body (snd (body w)))).
Proof.
  cbn [repeatM]. unfold bind, ret. destruct (body w) as [x w1].
  cbn [fst snd]. destruct (repeatM n body w1). reflexivity.
Qed.

(** [m] pulls in a row from the generator object [r]: the next days of the
    sequence while there are any, then [StopIteration] for ever.  Only the
    days that were pulled are made. *)
Lemma pulls_spec m : forall r f w,
  store w !! r = Some f ->
  exists f',
    gen_left f' = (gen_left f - m)%nat /\
    repeatM m (gen_next r) w
    = ((List.map Some (take m (fst (days_from (gen_left f) (rng w))))
        ++ replicate (m - gen_left f) None)%list,
       gen_world r f' (snd (days_from (min m (gen_left f)) (rng w)))
         (take m (fst (days_from (gen_left f) (rng w)))) w).
Proof.
  induction m as [|m IH]; intros r f w Hf.
  - exists f. split; [lia|]. cbn [repeatM]. unfold ret.
    rewrite take_0. cbn [min days_from snd List.map replicate app].
    replace (0 - gen_left f)%nat with O by lia.
    rewrite (gen_world_same _ _ _ Hf). reflexivity.
  - rewrite repeatM_S. destruct (gen_left f) as [|k] eqn:Hn.
    + rewrite (gen_next_none _ _ _ Hf Hn). cbn [fst snd].
      destruct (IH r GenDone (gen_world r GenDone (rng w) [] w)
                  (gen_world_lookup _ _ _ _ _ _ Hf)) as [f' [Hf' Hrun]].
      exists f'. split; [exact Hf'|].
      rewrite Hrun. cbn [gen_left gen_world rng days_from fst snd].
      rewrite !take_nil. cbn [List.map app].
      replace (min m 0) with O by lia.
      replace (m - 0)%nat with m by lia.
      cbn [min days_from snd replicate Nat.sub].
      f_equal. unfold gen_world. cbn [rng store stdout history].
      rewrite list_insert_insert_eq, !app_nil_r. reflexivity.
    + rewrite (gen_next_some _ _ _ _ Hf Hn). cbn [fst snd].
      destruct (IH r (GenSuspended k)
                  (gen_world r (GenSuspended k) (snd (next_day (rng w)))
                     [fst (next_day (rng w))] w)
                  (gen_world_lookup _ _ _ _ _ _ Hf)) as [f' [Hf' Hrun]].
      exists f'. split; [exact Hf'|].
      rewrite Hrun, gen_world_gen_world.
      cbn [gen_left gen_world rng].
      change (min (S m) (S k)) with (S (min m k)).
      rewrite !days_from_S. cbn [fst snd take firstn List.map app Nat.sub].
      reflexivity.
Qed.

Lemma for_loop_list {A} (body : string -> A -> A) days :
  forall fuel acc w,
  (List.length days < fuel)%nat ->
  for_loop fuel body (ListIter days) acc w
  = (Some (fold_left (fun a d => body d a) days acc), w).
Proof.
  induction days as [|d days IH]; intros fuel acc w Hfuel;
    (destruct fuel as [|fuel]; [simpl in Hfuel; lia|]).
  - reflexivity.
  - cbn [for_loop next]. unfold bind at 1. unfold ret at 1.
    cbn [fold_left]. apply IH. simpl in Hfuel. lia.
Qed.

Lemma for_loop_gen {A} (body : string -> A -> A) n :
  forall fuel r f acc w,
  store w !! r = Some f -> gen_left f = n -> (n < fuel)%nat ->
  for_loop fuel body (GenIter r) acc w
  = (Some (fold_left (fun a d => body d a) (fst (days_from n (rng w))) acc),
     gen_world r GenDone (snd (days_from n (rng w)))
       (fst (days_from n (rng w))) w).
Proof.
  induction n as [|n IH]; intros fuel r f acc w Hf Hn Hfuel;
    (destruct fuel as [|fuel]; [lia|]).
  - cbn [for_loop next]. unfold bind.
    rewrite (gen_next_none _ _ _ Hf Hn). reflexivity.
  - cbn [for_loop next]. unfold bind.
    rewrite (gen_next_some _ _ _ _ Hf Hn). unfold ret.
    rewrite (IH fuel r (GenSuspended n)); cycle 1.
    + apply (gen_world_lookup _ _ _ _ _ _ Hf).
    + reflexivity.
    + lia.
    + rewrite gen_world_gen_world, days_from_S. reflexivity.
Qed.

(** ** The Day Record and how it is drawn *)

Lemma rng_only_play {A} (m : Ideal.Rand A) : rng_only (play m).
Proof.
  induction m as [a|n k IH]; cbn [play].
  - apply rng_only_ret.
  - apply rng_only_bind; [apply rng_only_draw|exact IH].
Qed.

Lemma play_make_birds_for_day w :
  play Ideal.make_birds_for_day w
  = (fst (next_day (rng w)), evolve (snd (next_day (rng w))) [] w).
Proof.
  rewrite (rng_only_play Ideal.make_birds_for_day w).
  unfold next_day. rewrite make_birds_for_day_play. unfold bind.
  destruct (play Ideal.make_birds_for_day (start (rng w))) as [day w1].
  reflexivity.
Qed.

Lemma play_birder_list n w :
  play (Ideal.birder_list n) w
  = (fst (days_from (range_len n) (rng w)),
     evolve (snd (days_from (range_len n) (rng w))) [] w).
Proof.
  unfold Ideal.birder_list. rewrite play_repeat.
  generalize (range_len n). intros k. revert w.
  induction k as [|k IH]; intros w.
  - cbn [repeatM days_from fst snd]. unfold ret. rewrite evolve_same.
    reflexivity.
  - rewrite repeatM_S, play_make_birds_for_day. cbn [fst snd].
    rewrite IH, days_from_S. cbn [fst snd evolve rng].
    unfold evolve. cbn [rng store stdout history]. rewrite !app_nil_r.
    reflexivity.
Qed.

(** C6.  Split on single spaces, the Day Record that [make_birds_for_day]
    returns is the list of labels it drew, each a [random.choice] from
    [_BIRDS] and so a member of the catalog.  The number of labels lies
    between 100 and 1000 inclusive: it is [100] plus one draw below [901]
    made on the current state of [random], that is
    [random.randint(100, 1000)], so that each length of the range comes from
    exactly one of the 901 outcomes of that draw.  Every day of a sequence
    makes this draw anew, on the state the day before it left.

    The function is the birder's function on an ideal source, run on the
    generator that the world holds.  There the day is drawn as follows: one
    draw [r] below 901, then [100 + r] draws below 112, the labels being the
    birds of the catalog at the places drawn.  Weighing each value of a draw
    alike, each number of labels from 100 to 1000 has probability one in
    901; each of the first hundred labels is each bird of the catalog with
    probability one in 112; and the numbers of labels of the days of
    [birder_list] are independent, each list of sizes having the product of
    the probabilities of its sizes. *)
Theorem make_birds_for_day_labels (w : World) :
  split space (fst (make_birds_for_day w)) = fst (day_labels w) /\
  Forall (fun x => In x _BIRDS) (split space (fst (make_birds_for_day w))) /\
  100 <= len (split space (fst (make_birds_for_day w))) <= 1000 /\
  len (split space (fst (make_birds_for_day w)))
    = 100 + fst (randbelow 901 (rng w)) /\
  (forall size,
     len (split space (fst (make_birds_for_day w))) = size <->
     fst (randbelow 901 (rng w)) = size - 100) /\
  (forall k,
     len (split space (fst (next_day (snd (days_from k (rng w))))))
     = 100 + fst (randbelow 901 (snd (days_from k (rng w))))) /\
  make_birds_for_day w
    = (let* day := play Ideal.make_birds_for_day in
       record_day day ;; ret day) w /\
  (forall n, fst (birder_list n w) = fst (play (Ideal.birder_list n) w)) /\
  (forall r cs,
     0 <= r < 901 ->
     List.length cs = Z.to_nat (100 + r) ->
     Forall (fun c => 0 <= c < 112) cs ->
     Ideal.replay Ideal.make_birds_for_day (r :: cs)
     = Some (join " "
               (List.map (fun c => nth (Z.to_nat c) _BIRDS EmptyString) cs),
             [])) /\
  (forall size,
     100 <= size <= 1000 ->
     Ideal.prob Ideal.make_birds_for_day
       (fun day => Z.eqb (len (split space day)) size)
     = (/ Ideal.Qc_of_Z 901)%Qc) /\
  (forall j bird,
     (j < 100)%nat -> In bird _BIRDS ->
     Ideal.prob Ideal.make_birds_for_day
       (fun day => String.eqb (nth j (split space day) EmptyString) bird)
     = (/ Ideal.Qc_of_Z 112)%Qc) /\
  (forall n sizes,
     List.length sizes = range_len n ->
     Forall (fun size => 100 <= size <= 1000) sizes ->
     Ideal.prob (Ideal.birder_list n)
       (fun days =>
          bool_decide
            (List.map (fun day => len (split space day)) days = sizes))
     = ((/ Ideal.Qc_of_Z 901) ^ range_len n)%Qc).
Proof.
  rewrite make_birds_for_day_split.
  pose proof (day_labels_length w) as [Hlen Hr].
  split; [reflexivity|].
  split; [apply day_labels_birds|].
  split; [lia|]. split; [exact Hlen|].
  split; [intros size; lia|].
  split.
  { intros k. rewrite next_day_fst, make_birds_for_day_split.
    apply day_labels_length. }
  split; [apply make_birds_for_day_play|].
  split.
  { intros n. rewrite birder_list_spec, play_birder_list. reflexivity. }
  split; [exact replay_make_birds_for_day|].
  split; [exact day_length_uniform|].
  split; [exact day_label_uniform|].
  intros n sizes Hn Hall. unfold Ideal.birder_list. rewrite <- Hn.
  apply day_lengths_independent, Hall.
Qed.

(** ** The watcher *)

Lemma total_occurrences_nil bird : total_occurrences bird [] = 0.
Proof. reflexivity. Qed.

Lemma total_occurrences_cons bird day days :
  total_occurrences bird (day :: days)
  = len (find_bird_in_day bird day) + total_occurrences bird days.
Proof.
  unfold total_occurrences. cbn [flat_map].
  rewrite count_occ_app, len_find_bird_in_day. lia.
Qed.

Lemma fold_daily bird days : forall count,
  fold_left (fun a d => a + len (find_bird_in_day bird d)) days count
  = count + total_occurrences bird days.
Proof.
  induction days as [|d days IH]; intros count; cbn [fold_left].
  - rewrite total_occurrences_nil. lia.
  - rewrite IH, total_occurrences_cons. lia.
Qed.

Lemma fold_global bird days : forall birds : list string,
  len (fold_left (fun a d => (a ++ find_bird_in_day bird d)%list) days birds)
  = len birds + total_occurrences bird days.
Proof.
  induction days as [|d days IH]; intros birds; cbn [fold_left].
  - rewrite total_occurrences_nil. lia.
  - rewrite IH, total_occurrences_cons. unfold len.
    rewrite length_app. lia.
Qed.

Lemma watcher_daily_list fuel bird days w :
  (List.length days < fuel)%nat ->
  watcher_daily fuel bird (IList days) w
  = (Some (total_occurrences bird days), w).
Proof.
  intros Hfuel. unfold watcher_daily. cbn [iter].
  rewrite (for_loop_list _ _ _ _ _ Hfuel), fold_daily. reflexivity.
Qed.

Lemma watcher_global_list fuel bird days w :
  (List.length days < fuel)%nat ->
  watcher_global fuel bird (IList days) w
  = (Some (total_occurrences bird days), w).
Proof.
  intros Hfuel. unfold watcher_global, bind. cbn [iter].
  rewrite (for_loop_list _ _ _ _ _ Hfuel). unfold ret. cbn [option_map].
  rewrite fold_global. reflexivity.
Qed.

Lemma watcher_daily_gen fuel bird r f w :
  store w !! r = Some f -> (gen_left f < fuel)%nat ->
  watcher_daily fuel bird (IGen r) w
  = (Some (total_occurrences bird (fst (days_from (gen_left f) (rng w)))),
     gen_world r GenDone (snd (days_from (gen_left f) (rng w)))
       (fst (days_from (gen_left f) (rng w))) w).
Proof.
  intros Hf Hfuel. unfold watcher_daily. cbn [iter].
  rewrite (for_loop_gen _ _ _ _ _ _ _ Hf eq_refl Hfuel), fold_daily.
  reflexivity.
Qed.

Lemma watcher_global_gen fuel bird r f w :
  store w !! r = Some f -> (gen_left f < fuel)%nat ->
  watcher_global fuel bird (IGen r) w
  = (Some (total_occurrences bird (fst (days_from (gen_left f) (rng w)))),
     gen_world r GenDone (snd (days_from (gen_left f) (rng w)))
       (fst (days_from (gen_left f) (rng w))) w).
Proof.
  intros Hf Hfuel. unfold watcher_global, bind. cbn [iter].
  rewrite (for_loop_gen _ _ _ _ _ _ _ Hf eq_refl Hfuel). unfold ret.
  cbn [option_map]. rewrite fold_global. reflexivity.
Qed.

Lemma birder_generator_spec days w :
  birder_generator days w
  = (List.length (store w), set_store (store w ++ [GenCreated days]) w).
Proof. reflexivity. Qed.

Lemma new_generator_lookup days w :
  store (set_store (store w ++ [GenCreated days]) w) !! List.length (store w)
  = Some (GenCreated days).
Proof. cbn [set_store store]. apply list_lookup_middle. reflexivity. Qed.

Lemma new_generator_done days s ds w :
  gen_world (List.length (store w)) GenDone s ds
    (set_store (store w ++ [GenCreated days]) w)
  = set_store (store w ++ [GenDone]) (evolve s ds w).
Proof.
  unfold gen_world, set_store, evolve. cbn [rng store stdout history].
  f_equal.
  replace (List.length (store w)) with (List.length (store w) + 0)%nat by lia.
  rewrite insert_app_r. reflexivity.
Qed.

(** ** The command line *)

Lemma in_birder_choices b :
  in_choices b birder_choices = true <-> b = "list" \/ b = "generator".
Proof.
  unfold in_choices, birder_choices. cbn [existsb].
  rewrite !orb_true_iff, !String.eqb_eq. intuition discriminate.
Qed.

Lemma in_watcher_choices wt :
  in_choices wt watcher_choices = true <-> wt = "globally" \/ wt = "daily".
Proof.
  unfold in_choices, watcher_choices. cbn [existsb].
  rewrite !orb_true_iff, !String.eqb_eq. intuition discriminate.
Qed.

Lemma parse_args_valid b wt d n :
  in_choices b birder_choices = true ->
  in_choices wt watcher_choices = true ->
  positional_token d = true ->
  python_int d = Some n ->
  parse_args [b; wt; d]
  = Parsed {| BIRDER := b; WATCHER := wt; DAYS := n |}.
Proof.
  intros Hb Hw Hd Hn. unfold parse_args.
  assert (Hpos : forallb positional_token [b; wt; d] = true).
  { cbn [forallb]. rewrite Hd.
    apply in_birder_choices in Hb as [->| ->];
      apply in_watcher_choices in Hw as [->| ->]; reflexivity. }
  rewrite Hpos. unfold parse_positionals. rewrite Hb, Hw, Hn. reflexivity.
Qed.

(** ** A whole run *)

Ltac finish_run :=
  unfold bind, print, ret, add_stdout, evolve, set_store;
  cbn [rng store stdout history fst snd];
  rewrite <- ?app_assoc, ?app_nil_r; reflexivity.

Lemma print_spec line w : print line w = (tt, add_stdout [line] w).
Proof. reflexivity. Qed.

(** With a valid command line and enough fuel, [main] draws the target,
    makes the next [len(range(DAYS))] days of the sequence, prints its four
    lines and returns.  The mode arguments only decide whether a finished
    generator object is left in the store. *)
Lemma main_returns fuel elapsed b wt d n w :
  in_choices b birder_choices = true ->
  in_choices wt watcher_choices = true ->
  positional_token d = true ->
  python_int d = Some n ->
  (range_len n < fuel)%nat ->
  main fuel elapsed [b; wt; d] w
  = (Returned,
     {| rng := snd (days_from (range_len n) (rng (snd (choice _BIRDS w))));
        store := if String.eqb b "list" then store w
                 else (store w ++ [GenDone])%list;
        stdout :=
          (stdout w ++
           [birder_hullo b n;
            watcher_hail wt (fst (choice _BIRDS w));
            watcher_behold
              (total_occurrences (fst (choice _BIRDS w))
                 (fst (days_from (range_len n)
                         (rng (snd (choice _BIRDS w))))));
            birder_took elapsed])%list;
        history :=
          (history w
           ++ fst (days_from (range_len n) (rng (snd (choice _BIRDS w)))))%list
     |}).
Proof.
  intros Hb Hw Hd Hn Hfuel. unfold main.
  rewrite (parse_args_valid _ _ _ _ Hb Hw Hd Hn). cbn [BIRDER WATCHER DAYS].
  unfold bind at 1. rewrite (rng_only_choice _BIRDS w).
  set (bird := fst (choice _BIRDS (start (rng w)))).
  set (s1 := rng (snd (choice _BIRDS (start (rng w))))).
  cbn [fst snd evolve rng].
  set (ds := days_from (range_len n) s1).
  unfold bind at 1. rewrite print_spec.
  unfold bind at 1. rewrite print_spec.
  assert (Hlen : (List.length (fst ds) < fuel)%nat).
  { unfold ds. rewrite days_from_length. exact Hfuel. }
  apply in_birder_choices in Hb as [->| ->];
    apply in_watcher_choices in Hw as [->| ->]; cbn [String.eqb Ascii.eqb Bool.eqb];
    unfold bind at 1; unfold bind at 1.
  - rewrite birder_list_spec. unfold ret at 1. unfold bind at 1.
    rewrite (watcher_global_list _ _ _ _ Hlen).
    finish_run.
  - rewrite birder_list_spec. unfold ret at 1. unfold bind at 1.
    rewrite (watcher_daily_list _ _ _ _ Hlen).
    finish_run.
  - rewrite birder_generator_spec. unfold ret at 1. unfold bind at 1.
    rewrite (watcher_global_gen _ _ _ _ _ (new_generator_lookup _ _) Hfuel).
    rewrite new_generator_done.
    finish_run.
  - rewrite birder_generator_spec. unfold ret at 1. unfold bind at 1.
    rewrite (watcher_daily_gen _ _ _ _ _ (new_generator_lookup _ _) Hfuel).
    rewrite new_generator_done.
    finish_run.
Qed.

(** ** Producing and consuming *)

Lemma list_then_daily fuel bird n w :
  (range_len n < fuel)%nat ->
  (let* l := birder_list n in watcher_daily fuel bird (IList l)) w
  = (Some (total_occurrences bird (fst (days_from (range_len n) (rng w)))),
     evolve (snd (days_from (range_len n) (rng w)))
       (fst (days_from (range_len n) (rng w))) w).
Proof.
  intros Hfuel. unfold bind. rewrite birder_list_spec.
  apply watcher_daily_list. rewrite days_from_length. exact Hfuel.
Qed.

Lemma list_then_global fuel bird n w :
  (range_len n < fuel)%nat ->
  (let* l := birder_list n in watcher_global fuel bird (IList l)) w
  = (Some (total_occurrences bird (fst (days_from (range_len n) (rng w)))),
     evolve (snd (days_from (range_len n) (rng w)))
       (fst (days_from (range_len n) (rng w))) w).
Proof.
  intros Hfuel. unfold bind. rewrite birder_list_spec.
  apply watcher_global_list. rewrite days_from_length. exact Hfuel.
Qed.

Lemma generator_then_daily fuel bird n w :
  (range_len n < fuel)%nat ->
  (let* g := birder_generator n in watcher_daily fuel bird (IGen g)) w
  = (Some (total_occurrences bird (fst (days_from (range_len n) (rng w)))),
     set_store (store w ++ [GenDone])
       (evolve (snd (days_from (range_len n) (rng w)))
          (fst (days_from (range_len n) (rng w))) w)).
Proof.
  intros Hfuel. unfold bind. rewrite birder_generator_spec.
  rewrite (watcher_daily_gen _ _ _ _ _ (new_generator_lookup _ _) Hfuel).
  rewrite new_generator_done. reflexivity.
Qed.

Lemma generator_then_global fuel bird n w :
  (range_len n < fuel)%nat ->
  (let* g := birder_generator n in watcher_global fuel bird (IGen g)) w
  = (Some (total_occurrences bird (fst (days_from (range_len n) (rng w)))),
     set_store (store w ++ [GenDone])
       (evolve (snd (days_from (range_len n) (rng w)))
          (fst (days_from (range_len n) (rng w))) w)).
Proof.
  intros Hfuel. unfold bind. rewrite birder_generator_spec.
  rewrite (watcher_global_gen _ _ _ _ _ (new_generator_lookup _ _) Hfuel).
  rewrite new_generator_done. reflexivity.
Qed.

(** C1.  On any finite sequence of day strings, [watcher_daily] and
    [watcher_global] return the same count, the number of elements equal to
    the target across all the days.  For any day count, the four pairings of
    a birder with a watcher, started in the same state of [random], make the
    same Day Records and return that same count over them. *)
Theorem count_same_in_all_pairings
    (bird : string) (days : list string) (n : Z) (fuel : nat) (w : World) :
  (List.length days < fuel)%nat ->
  (range_len n < fuel)%nat ->
  let produced := fst (days_from (range_len n) (rng w)) in
  let list_daily :=
    (let* l := birder_list n in watcher_daily fuel bird (IList l)) w in
  let list_global :=
    (let* l := birder_list n in watcher_global fuel bird (IList l)) w in
  let generator_daily :=
    (let* g := birder_generator n in watcher_daily fuel bird (IGen g)) w in
  let generator_global :=
    (let* g := birder_generator n in watcher_global fuel bird (IGen g)) w in
  watcher_daily fuel bird (IList days) w
    = (Some (total_occurrences bird days), w) /\
  watcher_global fuel bird (IList days) w
    = (Some (total_occurrences bird days), w) /\
  fst list_daily = Some (total_occurrences bird produced) /\
  fst list_global = Some (total_occurrences bird produced) /\
  fst generator_daily = Some (total_occurrences bird produced) /\
  fst generator_global = Some (total_occurrences bird produced) /\
  history (snd list_daily) = (history w ++ produced)%list /\
  history (snd list_global) = (history w ++ produced)%list /\
  history (snd generator_daily) = (history w ++ produced)%list /\
  history (snd generator_global) = (history w ++ produced)%list.
Proof.
  intros Hdays Hfuel. cbv zeta.
  rewrite (watcher_daily_list _ _ _ _ Hdays), (watcher_global_list _ _ _ _ Hdays).
  rewrite (list_then_daily _ _ _ _ Hfuel), (list_then_global _ _ _ _ Hfuel).
  rewrite (generator_then_daily _ _ _ _ Hfuel).
  rewrite (generator_then_global _ _ _ _ Hfuel).
  repeat split.
Qed.

(** ** The generator object is consumed as it is read *)

Lemma days_from_take k n s :
  (k <= n)%nat ->
  take k (fst (days_from n s)) = fst (days_from k s) /\
  drop k (fst (days_from n s)) = fst (days_from (n - k) (snd (days_from k s))).
Proof.
  intros Hk. replace n with (k + (n - k))%nat at 1 2 by lia.
  rewrite days_from_add. cbn [fst].
  split.
  - apply take_app_length'. rewrite days_from_length. reflexivity.
  - apply drop_app_length'. rewrite days_from_length. reflexivity.
Qed.

(** C3.  Creating the generator object makes no day and leaves the state of
    [random] alone.  After [k <= len(range(n))] pulls the consumer holds the
    first [k] days of the sequence and only those [k] were made.  Whoever
    pulls [m] more times from the same object gets the days after the
    [k]-th, as far as they go, and [StopIteration] from then on; a second
    consumer that loops over the object counts over the days after the
    [k]-th only. *)
Theorem generator_forward_only
    (n : Z) (k m fuel : nat) (bird : string) (w : World) :
  (k <= range_len n)%nat ->
  (range_len n - k < fuel)%nat ->
  let g := fst (birder_generator n w) in
  let w0 := snd (birder_generator n w) in
  let all := fst (days_from (range_len n) (rng w)) in
  let first := repeatM k (gen_next g) w0 in
  let second := repeatM m (gen_next g) (snd first) in
  rng w0 = rng w /\ history w0 = history w /\
  fst first = List.map Some (take k all) /\
  history (snd first) = (history w ++ take k all)%list /\
  rng (snd first) = snd (days_from k (rng w)) /\
  fst second
    = (List.map Some (take m (drop k all))
       ++ replicate (m - (range_len n - k)) None)%list /\
  history (snd second) = (history w ++ take (k + m) all)%list /\
  fst (watcher_daily fuel bird (IGen g) (snd first))
    = Some (total_occurrences bird (drop k all)).
Proof.
  intros Hk Hfuel. cbv zeta. rewrite birder_generator_spec. cbn [fst snd].
  pose proof (new_generator_lookup n w) as Hg.
  set (w0 := set_store (store w ++ [GenCreated n]) w) in *.
  set (g := List.length (store w)) in *.
  change (rng w) with (rng w0). change (history w) with (history w0).
  destruct (pulls_spec k g _ w0 Hg) as [f1 [Hf1 Hrun1]].
  cbn [gen_left] in Hf1, Hrun1.
  destruct (days_from_take k (range_len n) (rng w0) Hk) as [Htake Hdrop].
  rewrite Hrun1. cbn [fst snd].
  replace (k - range_len n)%nat with O in * by lia.
  replace (min k (range_len n)) with k in * by lia.
  cbn [replicate]. rewrite app_nil_r.
  set (w1 := gen_world g f1 (snd (days_from k (rng w0)))
               (take k (fst (days_from (range_len n) (rng w0)))) w0) in *.
  assert (Hg1 : store w1 !! g = Some f1)
    by (apply (gen_world_lookup _ _ _ _ _ _ Hg)).
  destruct (pulls_spec m g _ w1 Hg1) as [f2 [Hf2 Hrun2]].
  rewrite Hf1 in Hrun2. rewrite Hrun2. cbn [fst snd].
  assert (Hfuel1 : (gen_left f1 < fuel)%nat) by (rewrite Hf1; exact Hfuel).
  rewrite (watcher_daily_gen _ _ _ _ _ Hg1 Hfuel1). cbn [fst]. rewrite Hf1.
  change (rng w1) with (snd (days_from k (rng w0))).
  rewrite <- Hdrop.
  repeat split.
  cbn [gen_world history w1]. rewrite <- app_assoc. f_equal.
  rewrite <- (take_drop k (fst (days_from (range_len n) (rng w0)))) at 3.
  rewrite take_app_add'; [reflexivity|].
  rewrite length_take, days_from_length. lia.
Qed.

(** ** Day counts with an empty range *)

Lemma range_len_nonpos n : n <= 0 -> range_len n = O.
Proof. unfold range_len. lia. Qed.

Lemma birder_token_ok (use_list : bool) :
  in_choices (if use_list then "list" else "generator") birder_choices = true.
Proof. destruct use_list; reflexivity. Qed.

Lemma watcher_token_ok (use_global : bool) :
  in_choices (if use_global then "globally" else "daily") watcher_choices
  = true.
Proof. destruct use_global; reflexivity. Qed.

(** What a day count [n <= 0] gives: no day from either birder, a count of
    [0] from either watcher, and a run of [main] that prints a total of [0]
    and makes no day. *)
Lemma empty_range_run
    (bird : string) (fuel : nat) (elapsed : string)
    (use_list use_global : bool) (d : string) (n : Z) (w : World) :
  n <= 0 -> positional_token d = true -> python_int d = Some n ->
  let g := fst (birder_generator n w) in
  let w0 := snd (birder_generator n w) in
  let birder := if use_list then "list" else "generator" in
  let watcher := if use_global then "globally" else "daily" in
  let final := main (S fuel) elapsed [birder; watcher; d] w in
  birder_list n w = ([], w) /\
  fst (gen_next g w0) = None /\
  history (snd (gen_next g w0)) = history w /\
  rng (snd (gen_next g w0)) = rng w /\
  watcher_daily (S fuel) bird (IList (fst (birder_list n w))) w = (Some 0, w) /\
  watcher_global (S fuel) bird (IList (fst (birder_list n w))) w
    = (Some 0, w) /\
  fst (watcher_daily (S fuel) bird (IGen g) w0) = Some 0 /\
  fst (watcher_global (S fuel) bird (IGen g) w0) = Some 0 /\
  fst final = Returned /\
  history (snd final) = history w /\
  stdout (snd final)
    = (stdout w ++
       [birder_hullo birder n;
        watcher_hail watcher (fst (choice _BIRDS w));
        watcher_behold 0;
        birder_took elapsed])%list.
Proof.
  intros Hn Hd Hint. cbv zeta.
  pose proof (range_len_nonpos n Hn) as Hlen.
  assert (Hfuel : (range_len n < S fuel)%nat) by lia.
  assert (Hlist : birder_list n w = ([], w)).
  { unfold birder_list. rewrite Hlen. reflexivity. }
  rewrite Hlist. cbn [fst].
  rewrite birder_generator_spec. cbn [fst snd].
  pose proof (new_generator_lookup n w) as Hg.
  assert (Hleft : gen_left (GenCreated n) = O) by exact Hlen.
  rewrite (gen_next_none _ _ _ Hg Hleft).
  assert (Hfuel' : (gen_left (GenCreated n) < S fuel)%nat)
    by (rewrite Hleft; lia).
  rewrite (watcher_daily_gen _ _ _ _ _ Hg Hfuel').
  rewrite (watcher_global_gen _ _ _ _ _ Hg Hfuel').
  rewrite Hleft.
  rewrite (main_returns _ elapsed _ _ _ _ w (birder_token_ok use_list)
             (watcher_token_ok use_global) Hd Hint Hfuel).
  rewrite Hlen. cbn [days_from fst snd history stdout gen_world rng set_store].
  rewrite !app_nil_r.
  repeat split.
Qed.

(** C5.  For a day count of [0] neither birder makes a Day Record:
    [birder_list(0)] is the empty list and the first pull from
    [birder_generator(0)] raises [StopIteration], with the state of [random]
    and the record of days untouched.  Either watcher returns [0] over either
    of them, and under each of the four mode pairings [main] prints a total
    of [0] and makes no day. *)
Theorem zero_days
    (bird : string) (fuel : nat) (elapsed : string)
    (use_list use_global : bool) (w : World) :
  let g := fst (birder_generator 0 w) in
  let w0 := snd (birder_generator 0 w) in
  let birder := if use_list then "list" else "generator" in
  let watcher := if use_global then "globally" else "daily" in
  let final := main (S fuel) elapsed [birder; watcher; "0"] w in
  birder_list 0 w = ([], w) /\
  fst (gen_next g w0) = None /\
  history (snd (gen_next g w0)) = history w /\
  rng (snd (gen_next g w0)) = rng w /\
  watcher_daily (S fuel) bird (IList (fst (birder_list 0 w))) w = (Some 0, w) /\
  watcher_global (S fuel) bird (IList (fst (birder_list 0 w))) w
    = (Some 0, w) /\
  fst (watcher_daily (S fuel) bird (IGen g) w0) = Some 0 /\
  fst (watcher_global (S fuel) bird (IGen g) w0) = Some 0 /\
  fst final = Returned /\
  history (snd final) = history w /\
  stdout (snd final)
    = (stdout w ++
       [birder_hullo birder 0;
        watcher_hail watcher (fst (choice _BIRDS w));
        watcher_behold 0;
        birder_took elapsed])%list.
Proof.
  apply (empty_range_run bird fuel elapsed use_list use_global "0" 0 w);
    [lia|reflexivity|reflexivity].
Qed.


(** ** Command lines that the parser refuses *)

Lemma main_parse_error fuel elapsed args e w :
  parse_args args = ParseError e ->
  main fuel elapsed args w = (UsageError e, w).
Proof. intros H. unfold main. rewrite H. reflexivity. Qed.

(** C7.  On a command line of positional tokens whose production-mode token
    is not [list] or [generator], or whose consumption-mode token is not
    [globally] or [daily], [main] ends in the parser's error for an invalid
    choice, which names the first argument with an unrecognized token and
    quotes that token; the state of [random], the record of days and the
    standard output are as they were before the call. *)
Theorem unknown_mode_rejected
    (fuel : nat) (elapsed : string) (b : string) (rest : list string)
    (w : World) :
  forallb positional_token (b :: rest) = true ->
  in_choices b birder_choices = false \/
  (exists wt rest', rest = wt :: rest' /\
                    in_choices wt watcher_choices = false) ->
  exists dest value choices,
    main fuel elapsed (b :: rest) w
      = (UsageError (InvalidChoice dest value choices), w) /\
    error_dest (InvalidChoice dest value choices) = Some dest /\
    ((dest = "BIRDER" /\ value = b /\ choices = birder_choices /\
      in_choices b birder_choices = false) \/
     (dest = "WATCHER" /\ choices = watcher_choices /\
      in_choices b birder_choices = true /\
      in_choices value watcher_choices = false /\
      exists rest', rest = value :: rest')).
Proof.
  intros Hpos Hbad.
  destruct (in_choices b birder_choices) eqn:Hb.
  - destruct Hbad as [Hbad|(wt & rest' & -> & Hw)]; [discriminate|].
    exists "WATCHER", wt, watcher_choices.
    split; [|split; [reflexivity|]].
    + apply main_parse_error. unfold parse_args. rewrite Hpos.
      unfold parse_positionals. rewrite Hb, Hw. reflexivity.
    + right. repeat split; try assumption. exists rest'. reflexivity.
  - exists "BIRDER", b, birder_choices.
    split; [|split; [reflexivity|]].
    + apply main_parse_error. unfold parse_args. rewrite Hpos.
      unfold parse_positionals. rewrite Hb. reflexivity.
    + left. repeat split.
Qed.


(** ** Runs from the same seed *)

(** C8.  Two runs from the same seed with the same command line make the
    same Day Records, byte for byte and so length for length, leave the
    state of [random] the same and end the same way; what they print is the
    same up to the closing line, which only differs in the elapsed time read
    from the clock.  The lines before it carry the target label and the
    total count. *)
Theorem same_seed_same_run
    (a : Z) (fuel : nat) (args : list string) (elapsed1 elapsed2 : string) :
  let r1 := run a fuel elapsed1 args in
  let r2 := run a fuel elapsed2 args in
  fst r1 = fst r2 /\
  history (snd r1) = history (snd r2) /\
  List.map (fun day => List.length (split space day)) (history (snd r1))
    = List.map (fun day => List.length (split space day)) (history (snd r2)) /\
  rng (snd r1) = rng (snd r2) /\
  (stdout (snd r1) = stdout (snd r2) \/
   exists lines,
     stdout (snd r1) = (lines ++ [birder_took elapsed1])%list /\
     stdout (snd r2) = (lines ++ [birder_took elapsed2])%list).
Proof.
  cbv zeta. unfold run, main.
  destruct (parse_args args) as [ns|e|].
  - unfold bind.
    destruct (choice _BIRDS (start (seed a))) as [bird w1].
    rewrite !print_spec.
    match goal with
    | |- context [let (_, _) := ?m in _] => destruct m as [day_iterator w2]
    end.
    match goal with
    | |- context [let (_, _) := ?m in _] => destruct m as [[count|] w3]
    end.
    + unfold print, ret. cbn [fst snd rng stdout history].
      repeat split. right.
      exists (stdout w3 ++ [watcher_behold count])%list. split; reflexivity.
    + unfold ret. cbn [fst snd]. repeat split. left. reflexivity.
  - unfold ret. cbn [fst snd]. repeat split. left. reflexivity.
  - unfold ret. cbn [fst snd]. repeat split. left. reflexivity.
Qed.

Lemma choice_birds_start s :
  choice _BIRDS (start s)
  = (nth (Z.to_nat (fst (randbelow 112 s))) _BIRDS EmptyString,
     start (snd (randbelow 112 s))).
Proof.
  unfold choice, bind, ret, draw. change (len _BIRDS) with 112.
  cbn [rng start]. destruct (randbelow 112 s) as [i s1]. reflexivity.
Qed.

(** C9.  The target label is the one [random.choice(_BIRDS)] made on the
    freshly seeded state, a single draw below [len(_BIRDS)], and the Day
    Records are drawn from the state that draw leaves.  Two runs from the
    same seed with the same [DAYS] token name the same target, make the same
    Day Records, leave [random] in the same state and print the same total,
    whatever their [BIRDER] and [WATCHER] tokens are. *)
Theorem modes_leave_random_alone
    (a : Z) (fuel : nat) (elapsed : string)
    (use_list1 use_global1 use_list2 use_global2 : bool)
    (d : string) (n : Z) :
  positional_token d = true -> python_int d = Some n ->
  (range_len n < fuel)%nat ->
  let birder1 := if use_list1 then "list" else "generator" in
  let watcher1 := if use_global1 then "globally" else "daily" in
  let birder2 := if use_list2 then "list" else "generator" in
  let watcher2 := if use_global2 then "globally" else "daily" in
  let r1 := run a fuel elapsed [birder1; watcher1; d] in
  let r2 := run a fuel elapsed [birder2; watcher2; d] in
  let bird :=
    nth (Z.to_nat (fst (randbelow 112 (seed a)))) _BIRDS EmptyString in
  let s1 := snd (randbelow 112 (seed a)) in
  let days := fst (days_from (range_len n) s1) in
  choice _BIRDS (start (seed a)) = (bird, start s1) /\
  fst r1 = Returned /\ fst r2 = Returned /\
  stdout (snd r1) !! 1%nat = Some (watcher_hail watcher1 bird) /\
  stdout (snd r2) !! 1%nat = Some (watcher_hail watcher2 bird) /\
  history (snd r1) = days /\ history (snd r2) = days /\
  rng (snd r1) = snd (days_from (range_len n) s1) /\
  rng (snd r2) = snd (days_from (range_len n) s1) /\
  stdout (snd r1) !! 2%nat
    = Some (watcher_behold (total_occurrences bird days)) /\
  stdout (snd r2) !! 2%nat
    = Some (watcher_behold (total_occurrences bird days)).
Proof.
  intros Hd Hint Hfuel. cbv zeta. unfold run.
  rewrite (main_returns _ elapsed _ _ _ _ _ (birder_token_ok use_list1)
             (watcher_token_ok use_global1) Hd Hint Hfuel).
  rewrite (main_returns _ elapsed _ _ _ _ _ (birder_token_ok use_list2)
             (watcher_token_ok use_global2) Hd Hint Hfuel).
  rewrite choice_birds_start.
  cbn [fst snd rng stdout history start app].
  repeat split.
Qed.

End Facts.

(** * The model at work on a concrete generator *)

Section Concrete.

#[local] Existing Instance Lcg.


(** C1 at two given days, and at a day count of 2 from the seeded state. *)
Lemma count_same_in_all_pairings_witness :
  (List.length ["tit duck tit"; "duck"] < 3)%nat /\
  (range_len 2 < 3)%nat /\
  watcher_daily 3 "tit" (IList ["tit duck tit"; "duck"]) seeded
    = (Some (total_occurrences "tit" ["tit duck tit"; "duck"]), seeded) /\
  fst ((let* g := birder_generator 2 in watcher_global 3 "tit" (IGen g)) seeded)
    = Some (total_occurrences "tit" (fst (days_from (range_len 2) (rng seeded)))).
Proof.
  assert (H1 : (List.length ["tit duck tit"; "duck"] < 3)%nat) by (simpl; lia).
  assert (H2 : (range_len 2 < 3)%nat) by (vm_compute; lia).
  split; [exact H1|]. split; [exact H2|].
  destruct (count_same_in_all_pairings (G := Lcg) "tit"
              ["tit duck tit"; "duck"] 2 3 seeded H1 H2)
    as (Hd & _ & _ & _ & _ & Hg & _).
  split; [exact Hd|exact Hg].
Defined.

(** C3 at a generator for three days: one pull, then three more. *)
Lemma generator_forward_only_witness :
  (1 <= range_len 3)%nat /\
  (range_len 3 - 1 < 3)%nat /\
  let g := fst (birder_generator 3 seeded) in
  let w0 := snd (birder_generator 3 seeded) in
  let all := fst (days_from (range_len 3) (rng seeded)) in
  let first := repeatM 1 (gen_next g) w0 in
  let second := repeatM 3 (gen_next g) (snd first) in
  fst second
  = (List.map Some (take 3 (drop 1 all))
     ++ replicate (3 - (range_len 3 - 1)) None)%list.
Proof.
  assert (H1 : (1 <= range_len 3)%nat) by (vm_compute; lia).
  assert (H2 : (range_len 3 - 1 < 3)%nat) by (vm_compute; lia).
  split; [exact H1|]. split; [exact H2|].
  destruct (generator_forward_only (G := Lcg) 3 1 3 3 "tit" seeded H1 H2)
    as (_ & _ & _ & _ & _ & H & _).
  exact H.
Defined.


(** C7 at the command line [lst daily 3]. *)
Lemma unknown_mode_rejected_witness :
  forallb positional_token ["lst"; "daily"; "3"] = true /\
  in_choices "lst" birder_choices = false /\
  exists dest value choices,
    main 4 "0.00" ["lst"; "daily"; "3"] seeded
      = (UsageError (InvalidChoice dest value choices), seeded) /\
    error_dest (InvalidChoice dest value choices) = Some dest /\
    ((dest = "BIRDER" /\ value = "lst" /\ choices = birder_choices /\
      in_choices "lst" birder_choices = false) \/
     (dest = "WATCHER" /\ choices = watcher_choices /\
      in_choices "lst" birder_choices = true /\
      in_choices value watcher_choices = false /\
      exists rest', ["daily"; "3"] = value :: rest')).
Proof.
  assert (H1 : forallb positional_token ["lst"; "daily"; "3"] = true)
    by reflexivity.
  assert (H2 : in_choices "lst" birder_choices = false) by reflexivity.
  split; [exact H1|]. split; [exact H2|].
  exact (unknown_mode_rejected (G := Lcg) 4 "0.00" "lst" ["daily"; "3"]
           seeded H1 (or_introl H2)).
Defined.


(** C9 at the seed of the script and three days: [list globally] against
    [generator daily]. *)
Lemma modes_leave_random_alone_witness :
  positional_token "3" = true /\
  python_int "3" = Some 3 /\
  (range_len 3 < 4)%nat /\
  history (snd (run (G := Lcg) 420 4 "0.00" ["list"; "globally"; "3"]))
    = fst (days_from (range_len 3) (snd (randbelow 112 (seed 420)))) /\
  history (snd (run (G := Lcg) 420 4 "0.00" ["generator"; "daily"; "3"]))
    = fst (days_from (range_len 3) (snd (randbelow 112 (seed 420)))).
Proof.
  assert (H1 : positional_token "3" = true) by reflexivity.
  assert (H2 : python_int "3" = Some 3) by reflexivity.
  assert (H3 : (range_len 3 < 4)%nat) by (vm_compute; lia).
  split; [exact H1|]. split; [exact H2|]. split; [exact H3|].
  destruct (modes_leave_random_alone (G := Lcg) 420 4 "0.00"
              true true false false "3" 3 H1 H2 H3)
    as (_ & _ & _ & _ & _ & Ha & Hb & _).
  split; [exact Ha|exact Hb].
Defined.

End Concrete.

(** * Further properties of the simulation *)

(** ** Days as text *)

Lemma split_app sep a b :
  split sep (a ++ String sep b) = (split sep a ++ split sep b)%list.
Proof.
  induction a as [|c a IH]; cbn [append split].
  - rewrite Ascii.eqb_refl. reflexivity.
  - rewrite IH. destruct (Ascii.eqb c sep); [reflexivity|].
    pose proof (split_not_nil sep a) as Hne.
    destruct (split sep a) as [|w ws]; [contradiction|]. reflexivity.
Qed.

Lemma length_append (a b : string) :
  String.length (a ++ b) = (String.length a + String.length b)%nat.
Proof. induction a as [|c a IH]; simpl; [reflexivity|]. rewrite IH. reflexivity. Qed.

Lemma list_sum_cons a l : list_sum (a :: l) = (a + list_sum l)%nat.
Proof. reflexivity. Qed.

(** The characters of a joined text: those of the items and one separator
    for each item, less the last. *)
Lemma length_join_succ sep items :
  items <> [] ->
  S (String.length (join (String sep EmptyString) items))
  = list_sum (List.map (fun x => S (String.length x)) items).
Proof.
  induction items as [|x rest IH]; intros Hne; [contradiction|].
  destruct rest as [|y rest].
  - simpl. lia.
  - rewrite join_cons_cons, !length_append.
    assert (Htail : y :: rest <> []) by discriminate.
    specialize (IH Htail). revert IH.
    generalize (y :: rest). intros tl IH.
    cbn [List.map]. rewrite list_sum_cons, <- IH. simpl. lia.
Qed.

Lemma count_occ_weight (bird : string) (l : list string) :
  (count_occ string_dec l bird * S (String.length bird)
   <= list_sum (List.map (fun x => S (String.length x)) l))%nat.
Proof.
  induction l as [|x l IH]; cbn [count_occ List.map]; [simpl; lia|].
  rewrite list_sum_cons.
  destruct (string_dec x bird) as [->|Hne]; lia.
Qed.

(** X1.  Splitting on single spaces undoes joining with single spaces: a
    non-empty list of labels that hold no space comes back as it was.  The
    empty list does not: it joins to the empty text, which splits into one
    empty label. *)
Theorem split_join_labels (labels : list string) :
  labels <> [] ->
  Forall (fun x => has_char space x = false) labels ->
  split space (join " " labels) = labels /\
  split space (join " " []) = [EmptyString].
Proof.
  intros Hne Hall. split; [|reflexivity].
  apply (split_join space); assumption.
Qed.

(** X2.  A target that holds a space is never found, whatever the day: the
    elements of a day are the pieces between spaces. *)
Theorem find_bird_with_space (bird day : string) :
  has_char space bird = true -> find_bird_in_day bird day = [].
Proof.
  intros Hsp. rewrite find_bird_in_day_repeat.
  replace (count_occ string_dec (split space day) bird) with O; [reflexivity|].
  symmetry. apply count_occ_not_In. intros Hin.
  pose proof (split_no_sep space day) as Hall.
  rewrite List.Forall_forall in Hall. rewrite (Hall _ Hin) in Hsp.
  discriminate.
Qed.

(** X3.  The matches in two days written one after the other with a space
    between them are the matches in the first followed by the matches in the
    second. *)
Theorem find_bird_in_day_app (bird day1 day2 : string) :
  find_bird_in_day bird (day1 ++ " " ++ day2)
  = (find_bird_in_day bird day1 ++ find_bird_in_day bird day2)%list.
Proof.
  unfold find_bird_in_day. cbn [append].
  rewrite (split_app space), List.filter_app. reflexivity.
Qed.

(** X5.  Each match takes up the characters of the target and, but for the
    last, a space: the number of matches times one more than the length of
    the target is at most one more than the length of the day.  A target
    longer than the day is not found. *)
Theorem find_bird_in_day_bound (bird day : string) :
  (List.length (find_bird_in_day bird day) * S (String.length bird)
   <= S (String.length day))%nat /\
  ((String.length day < String.length bird)%nat ->
   find_bird_in_day bird day = []).
Proof.
  assert (Hbound :
    (List.length (find_bird_in_day bird day) * S (String.length bird)
     <= S (String.length day))%nat).
  { rewrite find_bird_in_day_repeat, repeat_length.
    rewrite <- (join_split space day) at 2.
    rewrite (length_join_succ space) by apply split_not_nil.
    apply count_occ_weight. }
  split; [exact Hbound|].
  intros Hlong. destruct (find_bird_in_day bird day) as [|x l]; [reflexivity|].
  simpl in Hbound. lia.
Qed.

Lemma split_join_days (days : list string) :
  days <> [] ->
  split space (join " " days) = flat_map (split space) days.
Proof.
  induction days as [|d rest IH]; intros Hne; [contradiction|].
  destruct rest as [|d' rest].
  - cbn [join flat_map]. rewrite app_nil_r. reflexivity.
  - rewrite join_cons_cons. cbn [append].
    rewrite (split_app space), IH by discriminate. reflexivity.
Qed.

Lemma total_occurrences_app bird days1 days2 :
  total_occurrences bird (days1 ++ days2)
  = total_occurrences bird days1 + total_occurrences bird days2.
Proof.
  unfold total_occurrences. rewrite flat_map_app, count_occ_app. lia.
Qed.

Lemma total_occurrences_perm bird days days' :
  Permutation days days' ->
  total_occurrences bird days' = total_occurrences bird days.
Proof.
  intros Hp. unfold total_occurrences. f_equal.
  symmetry. apply (Permutation_count_occ string_dec).
  apply Permutation_flat_map, Hp.
Qed.

(** X19.  A day with [k] spaces has [k + 1] elements: every space separates
    two elements, so spaces at either end or next to each other make empty
    elements, and the empty day has the one empty element. *)
Theorem split_counts_spaces (day : string) :
  List.length (split space day)
  = S (List.length
         (List.filter (Ascii.eqb space) (list_ascii_of_string day))).
Proof.
  induction day as [|c day IH]; cbn [split list_ascii_of_string List.filter];
    [reflexivity|].
  rewrite (Ascii.eqb_sym space c).
  destruct (Ascii.eqb c space).
  - cbn [List.length]. rewrite IH. reflexivity.
  - rewrite <- IH. pose proof (split_not_nil space day) as Hne.
    destruct (split space day) as [|x xs]; [contradiction|]. reflexivity.
Qed.

Section Further.

Context {G : RandomGen}.

(** ** Watching a list of days *)

(** X4.  Counting over a non-empty list of days is counting in the one day
    made by writing them one after the other with single spaces: both
    watchers return the number of matches of [find_bird_in_day] in the joined
    text. *)
Theorem count_in_joined_days
    (bird : string) (days : list string) (fuel : nat) (w : World) :
  days <> [] ->
  (List.length days < fuel)%nat ->
  watcher_daily fuel bird (IList days) w
    = (Some (len (find_bird_in_day bird (join " " days))), w) /\
  watcher_global fuel bird (IList days) w
    = (Some (len (find_bird_in_day bird (join " " days))), w).
Proof.
  intros Hne Hfuel.
  rewrite (watcher_daily_list _ _ _ _ Hfuel), (watcher_global_list _ _ _ _ Hfuel).
  rewrite len_find_bird_in_day, (split_join_days _ Hne).
  split; reflexivity.
Qed.

(** X6.  The order of the days does not matter to either watcher: over a
    list of the same days in another order they return the same count. *)
Theorem watcher_any_order
    (bird : string) (days days' : list string) (fuel : nat) (w : World) :
  Permutation days days' ->
  (List.length days < fuel)%nat ->
  watcher_daily fuel bird (IList days') w
    = watcher_daily fuel bird (IList days) w /\
  watcher_global fuel bird (IList days') w
    = watcher_global fuel bird (IList days) w.
Proof.
  intros Hp Hfuel.
  assert (Hfuel' : (List.length days' < fuel)%nat)
    by (rewrite <- (Permutation_length Hp); exact Hfuel).
  rewrite (watcher_daily_list _ _ _ _ Hfuel), (watcher_global_list _ _ _ _ Hfuel).
  rewrite (watcher_daily_list _ _ _ _ Hfuel').
  rewrite (watcher_global_list _ _ _ _ Hfuel').
  rewrite (total_occurrences_perm _ _ _ Hp). split; reflexivity.
Qed.

(** X7.  Over one list of days followed by another, either watcher returns
    the sum of what it returns over each. *)
Theorem watcher_days_app
    (bird : string) (days1 days2 : list string) (fuel : nat) (w : World) :
  (List.length (days1 ++ days2) < fuel)%nat ->
  exists c1 c2,
    fst (watcher_daily fuel bird (IList days1) w) = Some c1 /\
    fst (watcher_daily fuel bird (IList days2) w) = Some c2 /\
    fst (watcher_daily fuel bird (IList (days1 ++ days2)) w) = Some (c1 + c2) /\
    fst (watcher_global fuel bird (IList days1) w) = Some c1 /\
    fst (watcher_global fuel bird (IList days2) w) = Some c2 /\
    fst (watcher_global fuel bird (IList (days1 ++ days2)) w) = Some (c1 + c2).
Proof.
  intros Hfuel.
  assert (H1 : (List.length days1 < fuel)%nat)
    by (rewrite length_app in Hfuel; lia).
  assert (H2 : (List.length days2 < fuel)%nat)
    by (rewrite length_app in Hfuel; lia).
  exists (total_occurrences bird days1), (total_occurrences bird days2).
  rewrite (watcher_daily_list _ _ _ _ H1), (watcher_daily_list _ _ _ _ H2).
  rewrite (watcher_daily_list _ _ _ _ Hfuel).
  rewrite (watcher_global_list _ _ _ _ H1), (watcher_global_list _ _ _ _ H2).
  rewrite (watcher_global_list _ _ _ _ Hfuel).
  rewrite total_occurrences_app. repeat split.
Qed.

(** ** Watching a generator object *)

(** X8.  A watcher uses a generator object up: after a first watch by
    either watcher, a second watch over the same object, for any bird and by
    either watcher, returns [0], makes no day and leaves the world as the
    first watch left it.  Over a list a watch by either watcher leaves the
    world as it was, so a second watch returns what it would have returned
    first. *)
Theorem second_watch_finds_nothing
    (bird bird' : string) (days : list string) (fuel : nat)
    (g : nat) (f : frame) (w : World) :
  store w !! g = Some f ->
  (gen_left f < fuel)%nat ->
  (List.length days < fuel)%nat ->
  let first_daily := watcher_daily fuel bird (IGen g) w in
  let first_global := watcher_global fuel bird (IGen g) w in
  watcher_daily fuel bird' (IGen g) (snd first_daily)
    = (Some 0, snd first_daily) /\
  watcher_global fuel bird' (IGen g) (snd first_daily)
    = (Some 0, snd first_daily) /\
  watcher_daily fuel bird' (IGen g) (snd first_global)
    = (Some 0, snd first_global) /\
  watcher_global fuel bird' (IGen g) (snd first_global)
    = (Some 0, snd first_global) /\
  snd (watcher_daily fuel bird (IList days) w) = w /\
  snd (watcher_global fuel bird (IList days) w) = w /\
  watcher_daily fuel bird' (IList days)
    (snd (watcher_global fuel bird (IList days) w))
    = watcher_daily fuel bird' (IList days) w /\
  watcher_global fuel bird' (IList days)
    (snd (watcher_daily fuel bird (IList days) w))
    = watcher_global fuel bird' (IList days) w.
Proof.
  intros Hf Hfuel Hdays. cbv zeta.
  rewrite (watcher_daily_gen _ _ _ _ _ Hf Hfuel).
  rewrite (watcher_global_gen _ _ _ _ _ Hf Hfuel). cbn [snd].
  set (w1 := gen_world g GenDone (snd (days_from (gen_left f) (rng w)))
               (fst (days_from (gen_left f) (rng w))) w).
  assert (Hg : store w1 !! g = Some GenDone)
    by (apply (gen_world_lookup _ _ _ _ _ _ Hf)).
  assert (Hfuel1 : (gen_left GenDone < fuel)%nat) by (simpl; lia).
  rewrite (watcher_daily_gen _ _ _ _ _ Hg Hfuel1).
  rewrite (watcher_global_gen _ _ _ _ _ Hg Hfuel1).
  cbn [gen_left days_from fst snd].
  rewrite (gen_world_same _ _ _ Hg).
  rewrite ?(watcher_daily_list _ _ _ _ Hdays).
  rewrite ?(watcher_global_list _ _ _ _ Hdays). cbn [snd].
  rewrite ?(watcher_daily_list _ _ _ _ Hdays).
  rewrite ?(watcher_global_list _ _ _ _ Hdays).
  repeat split.
Qed.

(** X9.  The generator object yields, pull by pull, the list that
    [birder_list] returns from the same state of [random]: after
    [len(range(n))] pulls the days pulled are that list, [random] and the
    record of days are where [birder_list] leaves them, and the next pull
    raises [StopIteration]. *)
Theorem generator_yields_birder_list (n : Z) (w : World) :
  let g := fst (birder_generator n w) in
  let w0 := snd (birder_generator n w) in
  let pulls := repeatM (range_len n) (gen_next g) w0 in
  fst pulls = List.map Some (fst (birder_list n w)) /\
  rng (snd pulls) = rng (snd (birder_list n w)) /\
  history (snd pulls) = history (snd (birder_list n w)) /\
  fst (gen_next g (snd pulls)) = None.
Proof.
  cbv zeta. rewrite birder_generator_spec, birder_list_spec. cbn [fst snd].
  pose proof (new_generator_lookup n w) as Hg.
  set (w0 := set_store (store w ++ [GenCreated n]) w) in *.
  set (g := List.length (store w)) in *.
  destruct (pulls_spec (range_len n) g _ w0 Hg) as [f1 [Hf1 Hrun]].
  cbn [gen_left] in Hf1, Hrun. rewrite Hrun. cbn [fst snd].
  replace (range_len n - range_len n)%nat with O in * by lia.
  replace (min (range_len n) (range_len n)) with (range_len n) by lia.
  rewrite take_ge by (rewrite days_from_length; lia).
  cbn [replicate]. rewrite app_nil_r.
  change (rng w0) with (rng w).
  split; [reflexivity|]. split; [reflexivity|]. split; [reflexivity|].
  set (w1 := gen_world g f1 (snd (days_from (range_len n) (rng w)))
               (fst (days_from (range_len n) (rng w))) w0).
  assert (Hg1 : store w1 !! g = Some f1)
    by (apply (gen_world_lookup _ _ _ _ _ _ Hg)).
  rewrite (gen_next_none _ _ _ Hg1 Hf1). reflexivity.
Qed.

(** ** The records that the birder makes *)

Lemma birds_lengths :
  Forall (fun x => (3 <= String.length x <= 24)%nat) _BIRDS.
Proof. unfold _BIRDS. repeat (constructor; [simpl; lia|]). constructor. Qed.


Lemma next_day_split s :
  split space (fst (next_day s)) = fst (day_labels (start s)).
Proof. rewrite next_day_fst. apply make_birds_for_day_split. Qed.

Lemma days_from_Forall (P : string -> Prop) k s :
  (forall s', P (fst (next_day s'))) -> Forall P (fst (days_from k s)).
Proof.
  intros HP. revert s. induction k as [|k IH]; intros s.
  - constructor.
  - rewrite days_from_S. cbn [fst]. constructor; [apply HP|apply IH].
Qed.

Lemma list_sum_bounds {A} (f : A -> nat) (lo hi : nat) (l : list A) :
  Forall (fun x => (lo <= f x <= hi)%nat) l ->
  (lo * List.length l <= list_sum (List.map f l) <= hi * List.length l)%nat.
Proof.
  induction 1 as [|x l Hx Hl IH]; cbn [List.map List.length].
  - simpl. lia.
  - rewrite list_sum_cons. lia.
Qed.

(** X10.  [birder_list(days)] returns [len(range(days))] Day Records, none
    for a day count of zero or less, each of them between 100 and 1000 labels
    of the catalog when split on single spaces; it prints nothing, creates no
    generator object and records exactly the days it returns. *)
Theorem birder_list_records (n : Z) (w : World) :
  let days := fst (birder_list n w) in
  let w' := snd (birder_list n w) in
  len days = Z.max 0 n /\
  Forall (fun day =>
            Forall (fun x => In x _BIRDS) (split space day) /\
            100 <= len (split space day) <= 1000) days /\
  history w' = (history w ++ days)%list /\
  stdout w' = stdout w /\ store w' = store w.
Proof.
  cbv zeta. rewrite birder_list_spec. cbn [fst snd evolve history stdout store].
  split.
  { unfold len. rewrite days_from_length. unfold range_len. lia. }
  split; [|repeat split].
  apply days_from_Forall. intros s. rewrite next_day_split.
  split; [apply day_labels_birds|].
  pose proof (day_labels_length (start s)) as [Hlen Hr]. lia.
Qed.

(** X11.  The text of a Day Record is never empty and holds no empty label:
    it neither starts nor ends with a space, and no two spaces follow each
    other.  With labels of 3 to 24 characters it is between 399 and 24999
    characters long. *)
Theorem day_record_text (w : World) :
  let day := fst (make_birds_for_day w) in
  day <> EmptyString /\
  Forall (fun x => x <> EmptyString) (split space day) /\
  399 <= Z.of_nat (String.length day) <= 24999.
Proof.
  cbv zeta.
  pose proof (make_birds_for_day_split w) as Hsplit.
  pose proof (day_labels_length w) as [Hlen Hr].
  pose proof (day_labels_birds w) as Hbirds.
  set (day := fst (make_birds_for_day w)) in *.
  assert (Hsizes :
    Forall (fun x => (4 <= S (String.length x) <= 25)%nat) (split space day)).
  { rewrite Hsplit. apply List.Forall_forall. intros x Hx.
    rewrite List.Forall_forall in Hbirds.
    pose proof birds_lengths as Hl. rewrite List.Forall_forall in Hl.
    specialize (Hl x (Hbirds x Hx)). lia. }
  assert (Hchars : 399 <= Z.of_nat (String.length day) <= 24999).
  { pose proof (length_join_succ space (split space day)
                  (split_not_nil space day)) as Hsum.
    rewrite (join_split space day) in Hsum.
    pose proof (list_sum_bounds _ _ _ _ Hsizes) as Hb.
    rewrite <- Hsum in Hb.
    assert (Hn : (100 <= List.length (split space day) <= 1000)%nat)
      by (rewrite Hsplit; unfold len in Hlen; lia).
    lia. }
  split; [|split; [|exact Hchars]].
  - intros Hempty. rewrite Hempty in Hchars. simpl in Hchars. lia.
  - apply List.Forall_forall. intros x Hx Hempty. subst x.
    rewrite List.Forall_forall in Hsizes. specialize (Hsizes _ Hx).
    simpl in Hsizes. lia.
Qed.




(** ** How a call of [main] can end *)

Lemma main_parsed_outcome fuel elapsed args ns w :
  parse_args args = Parsed ns ->
  fst (main fuel elapsed args w) = Returned \/
  fst (main fuel elapsed args w) = OutOfFuel.
Proof.
  intros Hparse. unfold main. rewrite Hparse. unfold bind.
  destruct (choice _BIRDS w) as [bird w1]. rewrite !print_spec.
  match goal with
  | |- context [let (_, _) := ?m in _] => destruct m as [day_iterator w2]
  end.
  match goal with
  | |- context [let (_, _) := ?m in _] => destruct m as [[count|] w3]
  end.
  - left. reflexivity.
  - right. reflexivity.
Qed.

Lemma parse_args_parsed args ns :
  parse_args args = Parsed ns ->
  exists d,
    args = [BIRDER ns; WATCHER ns; d] /\
    in_choices (BIRDER ns) birder_choices = true /\
    in_choices (WATCHER ns) watcher_choices = true /\
    python_int d = Some (DAYS ns).
Proof.
  unfold parse_args. destruct (forallb positional_token args); [|discriminate].
  unfold parse_positionals.
  destruct args as [|b [|wt [|d [|x extras]]]]; try discriminate;
    destruct (in_choices b birder_choices) eqn:Hb; try discriminate;
    cbn [negb];
    destruct (in_choices wt watcher_choices) eqn:Hw; try discriminate;
    cbn [negb];
    destruct (python_int d) as [n|] eqn:Hint; try discriminate.
  intros H. injection H as <-. cbn [BIRDER WATCHER DAYS].
  exists d. repeat split; assumption.
Qed.

(** X14.  On a command line of positional tokens that are ASCII text,
    [main] gets past the parser and runs the simulation exactly when the
    line has three tokens: a recognized production mode, a recognized
    consumption mode and a token that [int] reads.  Fewer tokens, more
    tokens, an unrecognized mode or an unreadable day count never get as far
    as the simulation. *)
Theorem returned_command_line
    (fuel : nat) (elapsed : string) (args : list string) (w : World) :
  forallb positional_token args = true ->
  forallb ascii_text args = true ->
  (fst (main fuel elapsed args w) = Returned \/
   fst (main fuel elapsed args w) = OutOfFuel) <->
  (exists b wt d n,
     args = [b; wt; d] /\
     in_choices b birder_choices = true /\
     in_choices wt watcher_choices = true /\
     python_int d = Some n).
Proof.
  intros Hpos _. split.
  - intros Hend. destruct (parse_args args) as [ns|e0|] eqn:Hparse.
    + destruct (parse_args_parsed _ _ Hparse) as (d & Hargs & Hb & Hw & Hint).
      exists (BIRDER ns), (WATCHER ns), d, (DAYS ns).
      repeat split; assumption.
    + rewrite (main_parse_error _ _ _ _ _ Hparse) in Hend.
      destruct Hend; discriminate.
    + unfold main in Hend. rewrite Hparse in Hend. destruct Hend; discriminate.
  - intros (b & wt & d & n & -> & Hb & Hw & Hint).
    assert (Hd : positional_token d = true).
    { cbn [forallb] in Hpos. apply andb_true_iff in Hpos as [_ Hpos].
      apply andb_true_iff in Hpos as [_ Hpos].
      apply andb_true_iff in Hpos as [Hd _]. exact Hd. }
    apply (main_parsed_outcome fuel elapsed _
             {| BIRDER := b; WATCHER := wt; DAYS := n |} w).
    apply parse_args_valid; assumption.
Qed.

(** ** Two generator objects *)

(** X15.  Generator objects do not own their days: two objects with items
    left draw from the one state of [random], so pulling from one and then
    from the other yields the first two days of the sequence in the order of
    the pulls, whichever object is pulled first.  Each pull uses up an item
    of the object pulled and none of the other. *)
Theorem generators_share_random
    (g1 g2 : nat) (f1 f2 : frame) (k1 k2 : nat) (w : World) :
  g1 <> g2 ->
  store w !! g1 = Some f1 -> store w !! g2 = Some f2 ->
  gen_left f1 = S k1 -> gen_left f2 = S k2 ->
  let a := gen_next g1 w in
  let b := gen_next g2 (snd a) in
  let a' := gen_next g2 w in
  let b' := gen_next g1 (snd a') in
  [fst a; fst b] = List.map Some (fst (days_from 2 (rng w))) /\
  [fst a'; fst b'] = List.map Some (fst (days_from 2 (rng w))) /\
  store (snd a) !! g2 = Some f2 /\
  store (snd b) !! g1 = Some (GenSuspended k1) /\
  store (snd b) !! g2 = Some (GenSuspended k2) /\
  snd b' = snd b.
Proof.
  intros Hne H1 H2 Hk1 Hk2. cbv zeta.
  rewrite (gen_next_some _ _ _ _ H1 Hk1), (gen_next_some _ _ _ _ H2 Hk2).
  cbn [fst snd].
  set (d1 := fst (next_day (rng w))). set (s1 := snd (next_day (rng w))).
  assert (H2a : store (gen_world g1 (GenSuspended k1) s1 [d1] w) !! g2
                = Some f2).
  { cbn [gen_world store]. rewrite list_lookup_insert_ne by exact Hne.
    exact H2. }
  assert (H1a : store (gen_world g2 (GenSuspended k2) s1 [d1] w) !! g1
                = Some f1).
  { cbn [gen_world store].
    rewrite list_lookup_insert_ne by (intros Heq; apply Hne; symmetry; exact Heq).
    exact H1. }
  rewrite (gen_next_some _ _ _ _ H2a Hk2), (gen_next_some _ _ _ _ H1a Hk1).
  cbn [fst snd gen_world rng store stdout history].
  rewrite !days_from_S. cbn [days_from fst snd List.map].
  fold d1 s1.
  split; [reflexivity|]. split; [reflexivity|].
  split; [exact H2a|].
  split.
  { rewrite list_lookup_insert_ne by (intros Heq; apply Hne; symmetry; exact Heq).
    apply list_lookup_insert_eq, (lookup_lt_Some _ _ _ H1). }
  split.
  { apply list_lookup_insert_eq. rewrite length_insert.
    apply (lookup_lt_Some _ _ _ H2). }
  unfold gen_world. cbn [rng store stdout history]. f_equal.
  apply list_insert_insert_ne. exact Hne.
Qed.

(** ** Counting over the catalog *)

Lemma list_sum_map_add {A} (f g : A -> nat) (l : list A) :
  list_sum (List.map (fun x => f x + g x)%nat l)
  = (list_sum (List.map f l) + list_sum (List.map g l))%nat.
Proof.
  induction l as [|x l IH]; cbn [List.map]; [reflexivity|].
  rewrite !list_sum_cons, IH. lia.
Qed.

Lemma list_sum_indicator (x : string) (B : list string) :
  list_sum (List.map (fun b => if string_dec x b then 1 else 0)%nat B)
  = count_occ string_dec B x.
Proof.
  induction B as [|b B IH]; cbn [List.map count_occ]; [reflexivity|].
  rewrite list_sum_cons, IH.
  destruct (string_dec x b) as [->|Hne].
  - destruct (string_dec b b) as [_|Hbb]; [reflexivity|contradiction].
  - destruct (string_dec b x) as [Heq|_]; [|reflexivity].
    exfalso. apply Hne. symmetry. exact Heq.
Qed.

Lemma count_over_catalog (B l : list string) :
  List.NoDup B -> Forall (fun x => In x B) l ->
  list_sum (List.map (fun b => count_occ string_dec l b) B) = List.length l.
Proof.
  intros Hnd. induction 1 as [|x l Hx Hl IH].
  - cbn [count_occ List.length].
    induction B as [|b B IHB]; [reflexivity|].
    cbn [List.map]. rewrite list_sum_cons, IHB; [reflexivity|].
    inversion Hnd; assumption.
  - cbn [List.length]. rewrite <- IH, <- Nat.add_1_l.
    rewrite <- (proj1 (List.NoDup_count_occ' string_dec B) Hnd x Hx) at 1.
    rewrite <- list_sum_indicator, <- list_sum_map_add.
    f_equal. apply List.map_ext. intros b. cbn [count_occ].
    destruct (string_dec x b); reflexivity.
Qed.

(** X16.  Every label of a Day Record counts for exactly one bird of the
    catalog: the numbers of matches of the catalog's birds in a day that
    [make_birds_for_day] returns add up to the number of labels of the day. *)
Theorem catalog_counts_add_up (w : World) :
  list_sum
    (List.map
       (fun bird =>
          List.length (find_bird_in_day bird (fst (make_birds_for_day w))))
       _BIRDS)
  = List.length (split space (fst (make_birds_for_day w))).
Proof.
  rewrite <- (count_over_catalog _BIRDS
                (split space (fst (make_birds_for_day w))) birds_NoDup).
  - f_equal. apply List.map_ext. intros bird.
    rewrite find_bird_in_day_repeat, repeat_length. reflexivity.
  - rewrite make_birds_for_day_split. apply day_labels_birds.
Qed.

Lemma total_occurrences_stranger bird days :
  ~ In bird _BIRDS ->
  Forall (fun day => Forall (fun x => In x _BIRDS) (split space day)) days ->
  total_occurrences bird days = 0.
Proof.
  intros Hout Hall. unfold total_occurrences.
  replace (count_occ string_dec (flat_map (split space) days) bird) with O;
    [reflexivity|].
  symmetry. apply count_occ_not_In. intros Hin.
  apply in_flat_map in Hin as (day & Hday & Hin).
  rewrite List.Forall_forall in Hall. specialize (Hall day Hday).
  rewrite List.Forall_forall in Hall. apply Hout, Hall, Hin.
Qed.

(** X17.  A bird that is not in the catalog is never seen: whatever the day
    count and the state of [random], each pairing of a birder with a watcher
    returns [0] for it. *)
Theorem stranger_never_counted
    (bird : string) (n : Z) (fuel : nat) (w : World) :
  ~ In bird _BIRDS ->
  (range_len n < fuel)%nat ->
  fst ((let* l := birder_list n in watcher_daily fuel bird (IList l)) w)
    = Some 0 /\
  fst ((let* l := birder_list n in watcher_global fuel bird (IList l)) w)
    = Some 0 /\
  fst ((let* g := birder_generator n in watcher_daily fuel bird (IGen g)) w)
    = Some 0 /\
  fst ((let* g := birder_generator n in watcher_global fuel bird (IGen g)) w)
    = Some 0.
Proof.
  intros Hout Hfuel.
  rewrite (list_then_daily _ _ _ _ Hfuel), (list_then_global _ _ _ _ Hfuel).
  rewrite (generator_then_daily _ _ _ _ Hfuel).
  rewrite (generator_then_global _ _ _ _ Hfuel).
  cbn [fst].
  rewrite (total_occurrences_stranger bird _ Hout); [repeat split|].
  apply days_from_Forall. intros s. rewrite next_day_split.
  apply day_labels_birds.
Qed.

(** ** What [watcher_global] collects *)

Lemma fold_global_repeat bird days : forall k,
  fold_left (fun a d => (a ++ find_bird_in_day bird d)%list) days
    (repeat bird k)
  = repeat bird
      (k + count_occ string_dec (flat_map (split space) days) bird).
Proof.
  induction days as [|d days IH]; intros k; cbn [fold_left flat_map].
  - cbn [count_occ]. rewrite Nat.add_0_r. reflexivity.
  - rewrite find_bird_in_day_repeat, <- repeat_app, IH, count_occ_app.
    f_equal. lia.
Qed.

(** X18.  The list that [watcher_global] builds up over the days holds one
    copy of the target for each match and nothing else; its length is the
    count that [watcher_daily] adds up on the way. *)
Theorem watcher_global_collects
    (bird : string) (days : list string) (fuel : nat) (w : World) :
  (List.length days < fuel)%nat ->
  exists count : nat,
    for_loop fuel (fun day birds => (birds ++ find_bird_in_day bird day)%list)
      (iter (IList days)) [] w
    = (Some (repeat bird count), w) /\
    watcher_global fuel bird (IList days) w = (Some (Z.of_nat count), w) /\
    watcher_daily fuel bird (IList days) w = (Some (Z.of_nat count), w).
Proof.
  intros Hfuel.
  exists (count_occ string_dec (flat_map (split space) days) bird).
  rewrite (watcher_global_list _ _ _ _ Hfuel), (watcher_daily_list _ _ _ _ Hfuel).
  cbn [iter]. rewrite (for_loop_list _ _ _ _ _ Hfuel).
  pose proof (fold_global_repeat bird days 0) as Hfold.
  cbn [repeat Nat.add] in Hfold. rewrite Hfold.
  repeat split.
Qed.

End Further.

(** ** Day counts as text *)

Lemma scan_digits_acc (d : Decimal.uint) : forall p : positive,
  scan_digits (Z.pos p) (NilEmpty.string_of_uint d)
  = (Z.pos (Pos.of_uint_acc d p), EmptyString).
Proof.
  induction d as [|d IH|d IH|d IH|d IH|d IH|d IH|d IH|d IH|d IH|d IH];
    intros p; cbn [NilEmpty.string_of_uint scan_digits Pos.of_uint_acc];
    [reflexivity|..];
    change (is_digit _) with true; cbn iota;
    rewrite <- IH; f_equal; unfold digit_value;
    match goal with
    | |- context [Z.of_nat (nat_of_ascii ?c)] =>
        let v := eval vm_compute in (Z.of_nat (nat_of_ascii c)) in
        change (Z.of_nat (nat_of_ascii c)) with v
    end; lia.
Qed.

Lemma scan_digits_uint (d : Decimal.uint) :
  scan_digits 0 (NilEmpty.string_of_uint d)
  = (Z.of_N (Pos.of_uint d), EmptyString).
Proof.
  induction d as [|d IH|d IH|d IH|d IH|d IH|d IH|d IH|d IH|d IH|d IH];
    cbn [NilEmpty.string_of_uint scan_digits Pos.of_uint];
    [reflexivity|exact IH|..];
    change (is_digit _) with true; cbn iota; cbn [Z.of_N];
    rewrite <- scan_digits_acc; f_equal.
Qed.

Lemma string_of_uint_head (d : Decimal.uint) :
  d <> Decimal.Nil ->
  exists c rest,
    NilEmpty.string_of_uint d = String c rest /\
    is_digit c = true /\ is_space c = false /\
    c <> "-"%char /\ c <> "+"%char.
Proof.
  intros Hne. destruct d; [contradiction|..];
    cbn [NilEmpty.string_of_uint]; eexists _, _;
    (split; [reflexivity|]); repeat split; discriminate.
Qed.

Lemma python_int_digits (d : Decimal.uint) :
  d <> Decimal.Nil ->
  python_int (NilEmpty.string_of_uint d) = Some (Z.of_N (Pos.of_uint d)) /\
  python_int (String "-" (NilEmpty.string_of_uint d))
    = Some (- Z.of_N (Pos.of_uint d)) /\
  positional_token (NilEmpty.string_of_uint d) = true /\
  positional_token (String "-" (NilEmpty.string_of_uint d)) = true.
Proof.
  intros Hne. pose proof (scan_digits_uint d) as Hscan.
  destruct (string_of_uint_head d Hne)
    as (c & rest & Hs & Hdig & Hsp & Hminus & Hplus).
  rewrite Hs in *.
  assert (Hc : forall (A : Type) (x y z : A),
             match c with "-"%char => x | "+"%char => y | _ => z end = z).
  { intros A x y z.
    destruct c as [[] [] [] [] [] [] [] []]; try reflexivity;
      contradiction. }
  repeat split.
  - unfold python_int. cbn [lstrip]. rewrite Hsp. rewrite Hc.
    cbn [starts_with_digit]. rewrite Hdig, Hscan. cbn [all_space]. f_equal. lia.
  - unfold python_int. cbn [lstrip]. change (is_space "-") with false.
    cbn iota. cbn [starts_with_digit]. rewrite Hdig, Hscan.
    cbn [all_space]. destruct (Pos.of_uint d); reflexivity.
  - destruct c as [[] [] [] [] [] [] [] []]; try reflexivity; contradiction.
  - cbn [positional_token negative_number starts_with_digit].
    rewrite Hdig, Hscan. reflexivity.
Qed.

Lemma is_space_ascii c : is_space c = true -> (nat_of_ascii c <? 128)%nat = true.
Proof.
  unfold is_space. cbv zeta.
  rewrite orb_true_iff, andb_true_iff, !Nat.leb_le, Nat.eqb_eq, Nat.ltb_lt.
  lia.
Qed.

Lemma is_digit_ascii c : is_digit c = true -> (nat_of_ascii c <? 128)%nat = true.
Proof.
  unfold is_digit. rewrite andb_true_iff, !Nat.leb_le, Nat.ltb_lt. lia.
Qed.

Lemma ascii_text_lstrip s : ascii_text (lstrip s) = true -> ascii_text s = true.
Proof.
  induction s as [|c s IH]; cbn [lstrip ascii_text]; [reflexivity|].
  destruct (is_space c) eqn:Hc; [|exact (fun H => H)].
  intros H. rewrite (is_space_ascii _ Hc), (IH H). reflexivity.
Qed.

Lemma ascii_text_all_space s : all_space s = true -> ascii_text s = true.
Proof.
  induction s as [|c s IH]; cbn [all_space ascii_text]; [reflexivity|].
  rewrite andb_true_iff. intros [Hc Hs].
  rewrite (is_space_ascii _ Hc), (IH Hs). reflexivity.
Qed.

Lemma ascii_text_scan_digits s : forall acc,
  ascii_text (snd (scan_digits acc s)) = true -> ascii_text s = true.
Proof.
  induction s as [|c s IH]; intros acc; cbn [scan_digits ascii_text];
    [reflexivity|].
  destruct (is_digit c) eqn:Hc; [|exact (fun H => H)].
  intros H. rewrite (is_digit_ascii _ Hc), (IH _ H). reflexivity.
Qed.

(** What [python_int] reads is ASCII text, where it is [int]. *)
Lemma python_int_ascii_text d n : python_int d = Some n -> ascii_text d = true.
Proof.
  unfold python_int. intros H. apply ascii_text_lstrip.
  assert (Hbody : forall s2,
            (if starts_with_digit s2
             then let '(v, rest) := scan_digits 0 s2 in
                  if all_space rest then Some v else None
             else None) <> None ->
            ascii_text s2 = true).
  { intros s2 Hs. destruct (starts_with_digit s2); [|contradiction].
    apply (ascii_text_scan_digits s2 0).
    destruct (scan_digits 0 s2) as [v rest]. cbn [snd].
    destruct (all_space rest) eqn:Hrest; [|contradiction].
    apply ascii_text_all_space, Hrest. }
  destruct (lstrip d) as [|c rest] eqn:Hd; [discriminate|].
  assert (Hcases :
            (c = "-"%char /\ ascii_text rest = true) \/
            (c = "+"%char /\ ascii_text rest = true) \/
            ascii_text (String c rest) = true).
  { destruct (Ascii.eqb_spec c "-") as [->|Hm].
    - left. split; [reflexivity|]. apply Hbody.
      destruct (starts_with_digit rest); [|discriminate].
      destruct (scan_digits 0 rest) as [v r].
      destruct (all_space r); discriminate.
    - destruct (Ascii.eqb_spec c "+") as [->|Hp].
      + right. left. split; [reflexivity|]. apply Hbody.
        destruct (starts_with_digit rest); [|discriminate].
        destruct (scan_digits 0 rest) as [v r].
        destruct (all_space r); discriminate.
      + right. right. apply Hbody.
        assert (Hc : forall (A : Type) (x y z : A),
                  match c with "-"%char => x | "+"%char => y | _ => z end = z).
        { intros A x y z.
          destruct c as [[] [] [] [] [] [] [] []]; try reflexivity;
            contradiction. }
        rewrite Hc in H.
        destruct (starts_with_digit (String c rest)); [|discriminate].
        destruct (scan_digits 0 (String c rest)) as [v r].
        destruct (all_space r); discriminate. }
  destruct Hcases as [[-> Hr]|[[-> Hr]|Hr]];
    cbn [ascii_text]; try rewrite Hr; try reflexivity; exact Hr.
Qed.

(** X20.  The day count that the birder's line prints reads back as the same
    day count: for every integer [n], negative ones included, the text of
    ['{}'.format(n)] is a positional token that [int] reads as [n], so with
    recognized mode tokens the command line parses to the namespace it was
    written from. *)
Theorem days_text_round_trip (b wt : string) (n : Z) :
  in_choices b birder_choices = true ->
  in_choices wt watcher_choices = true ->
  python_int (format_int n) = Some n /\
  positional_token (format_int n) = true /\
  parse_args [b; wt; format_int n]
  = Parsed {| BIRDER := b; WATCHER := wt; DAYS := n |}.
Proof.
  intros Hb Hw.
  assert (Hn : python_int (format_int n) = Some n /\
               positional_token (format_int n) = true).
  { unfold format_int. destruct n as [|p|p]; cbn [Z.to_int].
    - split; reflexivity.
    - pose proof (Unsigned.to_uint_nonnil p) as Hne.
      destruct (python_int_digits _ Hne) as (H1 & _ & H3 & _).
      unfold NilZero.string_of_int, NilZero.string_of_uint.
      destruct (Pos.to_uint p) eqn:Hp; try contradiction;
        rewrite H1, H3; rewrite <- Hp, Unsigned.of_to; split; reflexivity.
    - pose proof (Unsigned.to_uint_nonnil p) as Hne.
      destruct (python_int_digits _ Hne) as (_ & H2 & _ & H4).
      unfold NilZero.string_of_int, NilZero.string_of_uint.
      destruct (Pos.to_uint p) eqn:Hp; try contradiction;
        rewrite H2, H4; rewrite <- Hp, Unsigned.of_to; split; reflexivity. }
  destruct Hn as [Hint Hpos].
  split; [exact Hint|]. split; [exact Hpos|].
  apply parse_args_valid; assumption.
Qed.

(** ** The further properties on a concrete generator *)

Section FurtherConcrete.

#[local] Existing Instance Lcg.

(** X1 at three labels of the catalog. *)
Lemma split_join_labels_witness :
  ["tit"; "wren-tit"; "duck"] <> [] /\
  Forall (fun x => has_char space x = false) ["tit"; "wren-tit"; "duck"] /\
  split space (join " " ["tit"; "wren-tit"; "duck"])
    = ["tit"; "wren-tit"; "duck"].
Proof.
  assert (H1 : ["tit"; "wren-tit"; "duck"] <> []) by discriminate.
  assert (H2 : Forall (fun x => has_char space x = false)
                 ["tit"; "wren-tit"; "duck"]) by (repeat constructor).
  split; [exact H1|]. split; [exact H2|].
  exact (proj1 (split_join_labels ["tit"; "wren-tit"; "duck"] H1 H2)).
Defined.

(** X2 at a target of two words. *)
Lemma find_bird_with_space_witness :
  has_char space "blue tit" = true /\
  find_bird_in_day "blue tit" "blue tit blue_tit" = [].
Proof.
  assert (H1 : has_char space "blue tit" = true) by reflexivity.
  split; [exact H1|].
  exact (find_bird_with_space "blue tit" "blue tit blue_tit" H1).
Defined.

(** X4 at two days. *)
Lemma count_in_joined_days_witness :
  ["tit duck"; "duck tit tit"] <> [] /\
  (List.length ["tit duck"; "duck tit tit"] < 3)%nat /\
  watcher_daily 3 "tit" (IList ["tit duck"; "duck tit tit"]) seeded
    = (Some (len (find_bird_in_day "tit"
                    (join " " ["tit duck"; "duck tit tit"]))), seeded).
Proof.
  assert (H1 : ["tit duck"; "duck tit tit"] <> []) by discriminate.
  assert (H2 : (List.length ["tit duck"; "duck tit tit"] < 3)%nat)
    by (simpl; lia).
  split; [exact H1|]. split; [exact H2|].
  exact (proj1 (count_in_joined_days "tit" ["tit duck"; "duck tit tit"] 3
                  seeded H1 H2)).
Defined.

(** X6 at two days swapped. *)
Lemma watcher_any_order_witness :
  Permutation ["tit duck"; "duck"] ["duck"; "tit duck"] /\
  (List.length ["tit duck"; "duck"] < 3)%nat /\
  watcher_daily 3 "tit" (IList ["duck"; "tit duck"]) seeded
    = watcher_daily 3 "tit" (IList ["tit duck"; "duck"]) seeded.
Proof.
  assert (H1 : Permutation ["tit duck"; "duck"] ["duck"; "tit duck"])
    by apply perm_swap.
  assert (H2 : (List.length ["tit duck"; "duck"] < 3)%nat) by (simpl; lia).
  split; [exact H1|]. split; [exact H2|].
  exact (proj1 (watcher_any_order "tit" ["tit duck"; "duck"]
                  ["duck"; "tit duck"] 3 seeded H1 H2)).
Defined.

(** X7 at one day followed by two. *)
Lemma watcher_days_app_witness :
  (List.length (["tit"] ++ ["duck"; "tit tit"]) < 4)%nat /\
  exists c1 c2,
    fst (watcher_daily 4 "tit" (IList ["tit"]) seeded) = Some c1 /\
    fst (watcher_daily 4 "tit" (IList ["duck"; "tit tit"]) seeded) = Some c2 /\
    fst (watcher_daily 4 "tit" (IList (["tit"] ++ ["duck"; "tit tit"])) seeded)
      = Some (c1 + c2).
Proof.
  assert (H1 : (List.length (["tit"] ++ ["duck"; "tit tit"]) < 4)%nat)
    by (simpl; lia).
  split; [exact H1|].
  destruct (watcher_days_app "tit" ["tit"] ["duck"; "tit tit"] 4 seeded H1)
    as (c1 & c2 & Ha & Hb & Hc & _).
  exists c1, c2. split; [exact Ha|]. split; [exact Hb|exact Hc].
Defined.

(** X8 at a generator for two days: a first watch by [watcher_global], a
    second by [watcher_daily]. *)
Lemma second_watch_finds_nothing_witness :
  store (snd (birder_generator 2 seeded)) !! 0%nat = Some (GenCreated 2) /\
  (gen_left (GenCreated 2) < 3)%nat /\
  (List.length ["tit"] < 3)%nat /\
  let first :=
    watcher_global 3 "tit" (IGen 0%nat) (snd (birder_generator 2 seeded)) in
  watcher_daily 3 "duck" (IGen 0%nat) (snd first) = (Some 0, snd first).
Proof.
  assert (H1 : store (snd (birder_generator 2 seeded)) !! 0%nat
               = Some (GenCreated 2)) by reflexivity.
  assert (H2 : (gen_left (GenCreated 2) < 3)%nat) by (vm_compute; lia).
  assert (H3 : (List.length ["tit"] < 3)%nat) by (simpl; lia).
  split; [exact H1|]. split; [exact H2|]. split; [exact H3|].
  destruct (second_watch_finds_nothing "tit" "duck" ["tit"] 3 0%nat
              (GenCreated 2) (snd (birder_generator 2 seeded)) H1 H2 H3)
    as (_ & _ & H & _).
  exact H.
Defined.


(** X14 at the command line [list daily 0]. *)
Lemma returned_command_line_witness :
  forallb positional_token ["list"; "daily"; "0"] = true /\
  forallb ascii_text ["list"; "daily"; "0"] = true /\
  fst (main 1 "0.00" ["list"; "daily"; "0"] seeded) = Returned /\
  exists b wt d n,
    ["list"; "daily"; "0"] = [b; wt; d] /\
    in_choices b birder_choices = true /\
    in_choices wt watcher_choices = true /\
    python_int d = Some n.
Proof.
  assert (H1 : forallb positional_token ["list"; "daily"; "0"] = true)
    by reflexivity.
  assert (H2 : forallb ascii_text ["list"; "daily"; "0"] = true)
    by reflexivity.
  assert (H3 : fst (main 1 "0.00" ["list"; "daily"; "0"] seeded) = Returned)
    by (vm_compute; reflexivity).
  split; [exact H1|]. split; [exact H2|]. split; [exact H3|].
  exact (proj1 (returned_command_line 1 "0.00" ["list"; "daily"; "0"] seeded
                  H1 H2) (or_introl H3)).
Defined.

(** X15 at a generator for three days and one for two. *)
Lemma generators_share_random_witness :
  let w := snd (birder_generator 2 (snd (birder_generator 3 seeded))) in
  0%nat <> 1%nat /\
  store w !! 0%nat = Some (GenCreated 3) /\
  store w !! 1%nat = Some (GenCreated 2) /\
  gen_left (GenCreated 3) = 3%nat /\
  gen_left (GenCreated 2) = 2%nat /\
  [fst (gen_next 0%nat w); fst (gen_next 1%nat (snd (gen_next 0%nat w)))]
    = List.map Some (fst (days_from 2 (rng w))).
Proof.
  cbv zeta.
  set (w := snd (birder_generator 2 (snd (birder_generator 3 seeded)))).
  assert (H0 : 0%nat <> 1%nat) by discriminate.
  assert (H1 : store w !! 0%nat = Some (GenCreated 3)) by reflexivity.
  assert (H2 : store w !! 1%nat = Some (GenCreated 2)) by reflexivity.
  assert (H3 : gen_left (GenCreated 3) = 3%nat) by reflexivity.
  assert (H4 : gen_left (GenCreated 2) = 2%nat) by reflexivity.
  split; [exact H0|]. split; [exact H1|]. split; [exact H2|].
  split; [exact H3|]. split; [exact H4|].
  exact (proj1 (generators_share_random 0%nat 1%nat (GenCreated 3)
                  (GenCreated 2) 2 1 w H0 H1 H2 H3 H4)).
Defined.

(** X17 at a bird that the catalog does not have. *)
Lemma stranger_never_counted_witness :
  ~ In "dodo" _BIRDS /\
  (range_len 2 < 3)%nat /\
  fst ((let* g := birder_generator 2 in watcher_daily 3 "dodo" (IGen g)) seeded)
    = Some 0.
Proof.
  assert (H1 : ~ In "dodo" _BIRDS).
  { apply (proj2 (count_occ_not_In string_dec _BIRDS "dodo")).
    vm_compute. reflexivity. }
  assert (H2 : (range_len 2 < 3)%nat) by (vm_compute; lia).
  split; [exact H1|]. split; [exact H2|].
  destruct (stranger_never_counted "dodo" 2 3 seeded H1 H2)
    as (_ & _ & H & _).
  exact H.
Defined.

(** X18 at two days. *)
Lemma watcher_global_collects_witness :
  (List.length ["tit duck tit"; "tit"] < 3)%nat /\
  exists count : nat,
    for_loop 3 (fun day birds => (birds ++ find_bird_in_day "tit" day)%list)
      (iter (IList ["tit duck tit"; "tit"])) [] seeded
    = (Some (repeat "tit" count), seeded) /\
    watcher_global 3 "tit" (IList ["tit duck tit"; "tit"]) seeded
    = (Some (Z.of_nat count), seeded) /\
    watcher_daily 3 "tit" (IList ["tit duck tit"; "tit"]) seeded
    = (Some (Z.of_nat count), seeded).
Proof.
  assert (H1 : (List.length ["tit duck tit"; "tit"] < 3)%nat) by (simpl; lia).
  split; [exact H1|].
  exact (watcher_global_collects "tit" ["tit duck tit"; "tit"] 3 seeded H1).
Defined.

(** X20 at the day count [-12]. *)
Lemma days_text_round_trip_witness :
  in_choices "generator" birder_choices = true /\
  in_choices "globally" watcher_choices = true /\
  python_int (format_int (-12)) = Some (-12) /\
  parse_args ["generator"; "globally"; format_int (-12)]
  = Parsed {| BIRDER := "generator"; WATCHER := "globally"; DAYS := -12 |}.
Proof.
  assert (H1 : in_choices "generator" birder_choices = true) by reflexivity.
  assert (H2 : in_choices "globally" watcher_choices = true) by reflexivity.
  split; [exact H1|]. split; [exact H2|].
  destruct (days_text_round_trip "generator" "globally" (-12) H1 H2)
    as (Ha & _ & Hb).
  split; [exact Ha|exact Hb].
Defined.

End FurtherConcrete.
